(** * fscommander: ticket scoring and ranking

    A shallow embedding of the scoring and ordering core of
    [releases/fscommander.py] (version 1.0.5, the script the web front end
    [app.py] runs): the policy table [SCORING_MAP], the score
    resolver [calculate_sort_key], the ranker [sort_tickets] and the
    readability mapper [make_status_priority_readable], together with the
    pipeline that [main] runs over them, at both log levels the script
    can run at.  Around the core: the cells the
    two displays compute, the paging of [get_company_names], the retries
    of [make_api_request], the log file choice of [setup_logging], and the
    ranker of [fscommander-1.0.3.py] for comparison. *)

From Stdlib Require Import ZArith String Ascii Sorting.Sorted.
From stdpp Require Import base decidable countable list gmap strings pretty.

Local Open Scope string_scope.
Local Open Scope Z_scope.

(** ** Python values

    The JSON scalars that reach the core.  A ticket's [priority] and
    [status] arrive as integers and are overwritten with strings by the
    readability mapper, so both shapes are needed.  Dictionary keys are
    compared by value and an integer never equals a string. *)

Inductive pyval : Type :=
  | VInt (z : Z)
  | VStr (s : string).

#[global] Instance pyval_eq_dec : EqDecision pyval.
Proof. solve_decision. Defined.

Definition pyval_to_sum (v : pyval) : Z + string :=
  match v with VInt z => inl z | VStr s => inr s end.

Definition pyval_of_sum (x : Z + string) : pyval :=
  match x with inl z => VInt z | inr s => VStr s end.

#[global] Instance pyval_countable : Countable pyval.
Proof.
  apply (inj_countable' pyval_to_sum pyval_of_sum).
  intros []; reflexivity.
Defined.

(** A tuple used as a dictionary key: 4 components for an ordinary
    ticket, 3 for an escalated one. *)
Abbreviation pytuple := (list pyval).

(** ** Tickets *)

Record custom_fields_t : Type := CustomFields {
  account_tier : option string;   (* [.get('account_tier')]: [None] when missing or null *)
  environment : option string;    (* [.get('environment')]: [None] when missing or null *)
  ticket_type : string
}.

Record ticket : Type := Ticket {
  id : Z;
  department_id : Z;
  subject : string;
  priority : pyval;
  status : pyval;
  is_escalated : bool;
  custom_fields : custom_fields_t;
  created_at : string;
  score : option Z;               (* key ['score'], absent until ranked *)
  sort_key : option (Z * string)  (* key ['sort_key'], absent until ranked *)
}.

#[global] Instance custom_fields_eq_dec : EqDecision custom_fields_t.
Proof. solve_decision. Defined.

#[global] Instance ticket_eq_dec : EqDecision ticket.
Proof. solve_decision. Defined.

(** ** The policy table *)

Definition K4 (tier : string) (p : Z) (env ty : string) : pytuple :=
  [VStr tier; VInt p; VStr env; VStr ty].

Definition K3 (tier env : string) : pytuple :=
  [VStr tier; VStr "escalated"; VStr env].

Definition SCORING_MAP_items : list (pytuple * Z) := [
  (K4 "A" 4 "Production" "Incident or Problem", 76);
  (K4 "A" 4 "Lab" "Incident or Problem", 75);
  (K4 "B" 4 "Production" "Incident or Problem", 74);
  (K4 "B" 4 "Lab" "Incident or Problem", 73);
  (K4 "C" 4 "Production" "Incident or Problem", 72);
  (K4 "C" 4 "Lab" "Incident or Problem", 71);
  (K4 "D" 4 "Production" "Incident or Problem", 70);
  (K4 "D" 4 "Lab" "Incident or Problem", 69);
  (K4 "E" 4 "Production" "Incident or Problem", 68);
  (K4 "E" 4 "Lab" "Incident or Problem", 67);
  (K3 "A" "Production", 66);
  (K3 "A" "Lab", 65);
  (K3 "B" "Production", 64);
  (K3 "B" "Lab", 63);
  (K3 "C" "Production", 62);
  (K3 "C" "Lab", 61);
  (K4 "A" 3 "Production" "Incident or Problem", 60);
  (K4 "A" 3 "Lab" "Incident or Problem", 59);
  (K4 "B" 3 "Production" "Incident or Problem", 58);
  (K4 "B" 3 "Lab" "Incident or Problem", 57);
  (K4 "C" 3 "Production" "Incident or Problem", 56);
  (K4 "C" 3 "Lab" "Incident or Problem", 55);
  (K4 "A" 3 "Production" "Service request", 54);
  (K4 "A" 3 "Lab" "Service request", 53);
  (K4 "B" 3 "Production" "Service request", 52);
  (K4 "B" 3 "Lab" "Service request", 51);
  (K4 "C" 3 "Production" "Service request", 50);
  (K4 "C" 3 "Lab" "Service request", 49);
  (K4 "D" 3 "Production" "Incident or Problem", 48);
  (K4 "D" 3 "Lab" "Incident or Problem", 47);
  (K4 "E" 3 "Production" "Incident or Problem", 46);
  (K4 "E" 3 "Lab" "Incident or Problem", 45);
  (K4 "A" 2 "Production" "Incident or Problem", 44);
  (K4 "A" 2 "Lab" "Incident or Problem", 43);
  (K4 "B" 2 "Production" "Incident or Problem", 42);
  (K4 "B" 2 "Lab" "Incident or Problem", 41);
  (K3 "D" "Production", 40);
  (K3 "D" "Lab", 39);
  (K4 "C" 2 "Production" "Incident or Problem", 38);
  (K4 "C" 2 "Lab" "Incident or Problem", 37);
  (K4 "A" 2 "Production" "Service request", 36);
  (K4 "A" 2 "Lab" "Service request", 35);
  (K4 "B" 2 "Production" "Service request", 34);
  (K4 "B" 2 "Lab" "Service request", 33);
  (K4 "C" 2 "Production" "Service request", 32);
  (K4 "C" 2 "Lab" "Service request", 31);
  (K3 "E" "Production", 30);
  (K3 "E" "Lab", 29);
  (K4 "D" 2 "Production" "Incident or Problem", 28);
  (K4 "D" 2 "Lab" "Incident or Problem", 27);
  (K4 "D" 2 "Production" "Service request", 26);
  (K4 "D" 2 "Lab" "Service request", 25);
  (K4 "E" 2 "Production" "Incident or Problem", 24);
  (K4 "E" 2 "Lab" "Incident or Problem", 23);
  (K4 "E" 2 "Production" "Service request", 22);
  (K4 "E" 2 "Lab" "Service request", 21);
  (K4 "A" 1 "Production" "Incident or Problem", 20);
  (K4 "A" 1 "Lab" "Incident or Problem", 19);
  (K4 "B" 1 "Production" "Incident or Problem", 18);
  (K4 "B" 1 "Lab" "Incident or Problem", 17);
  (K4 "C" 1 "Production" "Incident or Problem", 16);
  (K4 "C" 1 "Lab" "Incident or Problem", 15);
  (K4 "A" 1 "Production" "Service request", 14);
  (K4 "A" 1 "Lab" "Service request", 13);
  (K4 "B" 1 "Production" "Service request", 12);
  (K4 "B" 1 "Lab" "Service request", 11);
  (K4 "C" 1 "Production" "Service request", 10);
  (K4 "C" 1 "Lab" "Service request", 9);
  (K4 "D" 1 "Production" "Incident or Problem", 8);
  (K4 "D" 1 "Lab" "Incident or Problem", 7);
  (K4 "D" 1 "Production" "Service request", 6);
  (K4 "D" 1 "Lab" "Service request", 5);
  (K4 "E" 1 "Production" "Incident or Problem", 4);
  (K4 "E" 1 "Lab" "Incident or Problem", 3);
  (K4 "E" 1 "Production" "Service request", 2);
  (K4 "E" 1 "Lab" "Service request", 1)
].

(** The dictionary the literal denotes.  A Python literal keeps the last
    value of a repeated key and [list_to_map] the first; the literal
    repeats no key ([SCORING_MAP_keys_nodup]), so the two agree. *)
Definition SCORING_MAP : gmap pytuple Z := list_to_map SCORING_MAP_items.

Arguments SCORING_MAP : simpl never.

(** ** Logging

    [logging.warning] appends one record to the run's log; the core does
    no other output.  The log is threaded explicitly. *)

Inductive log_level : Type := DEBUG | INFO | WARNING | ERROR.

Abbreviation log_record := (log_level * string)%type.

#[global] Instance log_level_eq_dec : EqDecision log_level.
Proof. solve_decision. Defined.

Definition warn_account_tier (t : ticket) : log_record :=
  (WARNING, "Ticket ID: " +:+ pretty (id t) +:+
            " does not have an account tier defined. Default value 'C' used.").

Definition warn_environment (t : ticket) : log_record :=
  (WARNING, "Ticket ID: " +:+ pretty (id t) +:+
            " does not have an environment defined. Default value 'Production' used.").

(** ** Score resolver *)

(** The dictionary key built from a ticket once the defaults are in. *)
Definition score_key (tier env : string) (t : ticket) : pytuple :=
  if is_escalated t
  then [VStr tier; VStr "escalated"; VStr env]
  else [VStr tier; priority t; VStr env; VStr (ticket_type (custom_fields t))].

(** [calculate_sort_key(ticket)]: the pair [(-score, created_at)] and the
    warnings logged on the way. *)
Definition calculate_sort_key (t : ticket) : (Z * string) * list log_record :=
  let '(tier, log1) :=
    match account_tier (custom_fields t) with
    | None => ("C", [warn_account_tier t])
    | Some a => (a, [])
    end in
  let '(env, log2) :=
    match environment (custom_fields t) with
    | None => ("Production", [warn_environment t])
    | Some e => (e, [])
    end in
  let score := default 0 (SCORING_MAP !! score_key tier env t) in
  ((- score, created_at t), (log1 ++ log2)%list).

(** The score itself, as [sort_tickets] recovers it: [-sort_key[0]]. *)
Definition ticket_score (t : ticket) : Z := - (calculate_sort_key t).1.1.

(** ** Sorting *)

(** [<] on the tuples [(-score, created_at)]: first components are
    compared as integers, and on a tie the timestamps as strings,
    character by character (byte order, which is code-point order for
    UTF-8 text). *)
Definition sort_key_lt (a b : Z * string) : bool :=
  (a.1 <? b.1) || ((a.1 =? b.1) && String.ltb a.2 b.2).

(** [list.sort(key=...)] is a stable sort that only ever asks [<] of two
    keys.  It is rendered as the stable insertion sort: an element is put
    in front of the first element that is not smaller than it. *)
Section ListSort.
Context {A K : Type} (lt : K → K → bool) (key : A → K).

Fixpoint insert_by (x : A) (l : list A) : list A :=
  match l with
  | [] => [x]
  | y :: r => if lt (key y) (key x) then y :: insert_by x r else x :: y :: r
  end.

Definition list_sort (l : list A) : list A := foldr insert_by [] l.

(** [x] may stand before [y]: the key of [y] is not smaller. *)
Definition key_le (x y : A) : Prop := lt (key y) (key x) = false.
End ListSort.

(** ** Readability mapper *)

Definition status_mapping_items : list (pyval * string) := [
  (VInt 2, "Open");
  (VInt 3, "Pending");
  (VInt 4, "Resolved");
  (VInt 5, "Closed");
  (VInt 6, "New");
  (VInt 7, "Pending access");
  (VInt 8, "Waiting for RnD");
  (VInt 9, "Pending other ticket");
  (VInt 10, "Waiting for maintenance");
  (VInt 11, "Waiting for bugfix");
  (VInt 12, "Service request triage");
  (VInt 13, "Rejected");
  (VInt 14, "Duplicate")
].

Definition status_mapping : gmap pyval string := list_to_map status_mapping_items.

Definition priority_mapping_items : list (pyval * string) := [
  (VInt 1, "Low");
  (VInt 2, "Medium");
  (VInt 3, "High");
  (VInt 4, "Urgent")
].

Definition priority_mapping : gmap pyval string := list_to_map priority_mapping_items.

(** The loop body of [make_status_priority_readable]: both fields are
    overwritten in the ticket.  The tickets of a list decoded from JSON
    are distinct objects, so the loop visits each of them once. *)
Definition make_readable (t : ticket) : ticket :=
  {| id := id t; department_id := department_id t; subject := subject t;
     priority := VStr (default "Unknown Priority" (priority_mapping !! priority t));
     status := VStr (default "Unknown Status" (status_mapping !! status t));
     is_escalated := is_escalated t; custom_fields := custom_fields t;
     created_at := created_at t;
     score := score t; sort_key := sort_key t |}.

Definition make_status_priority_readable (ts : list ticket) : list ticket :=
  map make_readable ts.

(** ** Definitions the statements are written with *)

(** The key that is looked up for a ticket, defaults included. *)
Definition lookup_key (t : ticket) : pytuple :=
  score_key (default "C" (account_tier (custom_fields t)))
            (default "Production" (environment (custom_fields t))) t.

(** A key whose priority is 4 and whose type is "Service request". *)
Definition urgent_service_request (k : pytuple) : Prop :=
  k !! 1%nat = Some (VInt 4) ∧ k !! 3%nat = Some (VStr "Service request").

(** The ticket with both defaults written in, as the spec's step 1 puts
    it: a missing tier becomes C, a missing environment Production. *)
Definition apply_defaults (t : ticket) : ticket :=
  {| id := id t; department_id := department_id t; subject := subject t;
     priority := priority t; status := status t;
     is_escalated := is_escalated t;
     custom_fields :=
       CustomFields (Some (default "C" (account_tier (custom_fields t))))
                    (Some (default "Production" (environment (custom_fields t))))
                    (ticket_type (custom_fields t));
     created_at := created_at t; score := score t; sort_key := sort_key t |}.

(** The diagnostics [calculate_sort_key] logs for a ticket: one per
    missing field, tier first. *)
Definition missing_field_warnings (t : ticket) : list log_record :=
  ((if account_tier (custom_fields t) is None then [warn_account_tier t] else []) ++
   (if environment (custom_fields t) is None then [warn_environment t] else []))%list.

Definition missing_fields (t : ticket) : nat :=
  ((if account_tier (custom_fields t) is None then 1 else 0) +
   (if environment (custom_fields t) is None then 1 else 0))%nat.

(** ** Sample tickets *)

Definition mk (i : Z) (tier : option string) (p : Z) (env : option string)
    (ty : string) (esc : bool) (created : string) : ticket :=
  {| id := i; department_id := 7; subject := "printer on fire";
     priority := VInt p; status := VInt 2; is_escalated := esc;
     custom_fields := CustomFields tier env ty;
     created_at := created; score := None; sort_key := None |}.

(** An escalated tier-E ticket in Production: its key is in the table. *)
Definition escalated_tier_E : ticket :=
  {| id := 4711; department_id := 7; subject := "billing export fails";
     priority := VInt 3; status := VInt 2; is_escalated := true;
     custom_fields := CustomFields (Some "E") (Some "Production") "Incident or Problem";
     created_at := "2024-01-01T00:00:00Z"; score := None; sort_key := None |}.

Definition open_ticket : ticket :=
  mk 9 (Some "B") 3 (Some "Lab") "Service request" false "2024-03-05T10:00:00Z".

(** ** More of the resolver's vocabulary *)

(** The local variables [account_tier] and [environment] of
    [calculate_sort_key] after its two [if ... is None] blocks. *)
Definition tier_used (t : ticket) : string :=
  default "C" (account_tier (custom_fields t)).

Definition environment_used (t : ticket) : string :=
  default "Production" (environment (custom_fields t)).

(** Orders on two keys of the table, read off their components. *)
Definition key_prio_lt (k1 k2 : pytuple) : Prop :=
  match k1 !! 1%nat, k2 !! 1%nat with
  | Some (VInt p1), Some (VInt p2) => p1 < p2
  | _, _ => False
  end.

Definition key_tier_lt (k1 k2 : pytuple) : Prop :=
  match k1 !! 0%nat, k2 !! 0%nat with
  | Some (VStr a), Some (VStr b) => String.ltb a b = true
  | _, _ => False
  end.

#[global] Instance key_prio_lt_dec k1 k2 : Decision (key_prio_lt k1 k2).
Proof.
  unfold key_prio_lt.
  destruct (k1 !! 1%nat) as [[]|], (k2 !! 1%nat) as [[]|]; apply _.
Defined.

#[global] Instance key_tier_lt_dec k1 k2 : Decision (key_tier_lt k1 k2).
Proof.
  unfold key_tier_lt.
  destruct (k1 !! 0%nat) as [[]|], (k2 !! 0%nat) as [[]|]; apply _.
Defined.

(** More sample tickets. *)
Definition a2_incident_production : ticket :=
  mk 21 (Some "A") 2 (Some "Production") "Incident or Problem" false "2024-02-01T08:00:00Z".

Definition a2_incident_lab : ticket :=
  mk 22 (Some "A") 2 (Some "Lab") "Incident or Problem" false "2024-02-01T09:00:00Z".

Definition a3_incident_production : ticket :=
  mk 23 (Some "A") 3 (Some "Production") "Incident or Problem" false "2024-02-01T10:00:00Z".

Definition d2_incident_production : ticket :=
  mk 24 (Some "D") 2 (Some "Production") "Incident or Problem" false "2024-02-01T11:00:00Z".

Definition a2_request_production : ticket :=
  mk 25 (Some "A") 2 (Some "Production") "Service request" false "2024-02-01T12:00:00Z".

Definition c_escalated_lab : ticket :=
  mk 26 (Some "C") 1 (Some "Lab") "Service request" true "2024-02-01T13:00:00Z".

(** ** Display helpers

    The cells [display_as_table] and [display_as_html] compute for a
    ticket before printing.  [len] and slicing count characters; the
    characters of the model are bytes, which is the same thing for ASCII
    text. *)

(** [(ticket['subject'][:47] + '...') if len(ticket['subject']) > 50
    else ticket['subject']]. *)
Definition subject_truncated (t : ticket) : string :=
  if (50 <? String.length (subject t))%nat
  then String.substring 0 47 (subject t) +:+ "..."
  else subject t.

(** [company_names.get(ticket['department_id'], 'Unknown')]. *)
Definition company_name (company_names : gmap Z string) (t : ticket) : string :=
  default "Unknown" (company_names !! department_id t).

(** [(company_name[:27] + '...') if len(company_name) > 30 else
    company_name]. *)
Definition company_name_truncated (company_names : gmap Z string) (t : ticket) : string :=
  let c := company_name company_names t in
  if (30 <? String.length c)%nat then String.substring 0 27 c +:+ "..." else c.

Definition long_subject_ticket : ticket :=
  {| id := 77; department_id := 3;
     subject := "Customer cannot log in to the control panel after the weekend upgrade";
     priority := VInt 3; status := VInt 2; is_escalated := false;
     custom_fields := CustomFields (Some "B") None "Incident or Problem";
     created_at := "2024-04-01T09:30:00Z"; score := None; sort_key := None |}.

(** ** Fetching the company names

    [get_company_names] asks the departments endpoint for page 1, 2, ...
    and stops at the first page that comes back without departments.  The
    remote side is a function from the page number to the departments of
    that page, as (id, name) pairs; the [while True] loop runs on fuel. *)

Definition add_departments (companies : gmap Z string)
    (departments : list (Z * string)) : gmap Z string :=
  foldl (λ c company, <[company.1 := company.2]> c) companies departments.

Fixpoint get_company_names_loop (fuel : nat) (server : nat → list (Z * string))
    (page : nat) (companies : gmap Z string) : option (gmap Z string) :=
  match fuel with
  | O => None
  | S fuel' =>
      match server page with
      | [] => Some companies
      | departments =>
          get_company_names_loop fuel' server (S page)
            (add_departments companies departments)
      end
  end.

Definition get_company_names (fuel : nat) (server : nat → list (Z * string)) :
    option (gmap Z string) :=
  get_company_names_loop fuel server 1 ∅.

(** The pages a run reads: [first], [first + 1], ..., [first + count - 1]. *)
Definition pages_read (server : nat → list (Z * string)) (first count : nat) :
    list (Z * string) :=
  concat (map server (seq first count)).

Definition three_pages (page : nat) : list (Z * string) :=
  match page with
  | 1%nat => [(3, "Acme"); (5, "Initech")]
  | 2%nat => [(3, "Acme Corporation")]
  | 4%nat => [(9, "Never fetched")]
  | _ => []
  end.

(** ** Requests with retries

    [make_api_request] against a network that answers the attempts 0, 1,
    2, ... of a call: with a timeout, with another transport error, or
    with a response of some status code. *)

Inductive outcome : Type :=
  | TimedOut
  | TransportError
  | Response (status_code : Z).

Inductive api_result : Type :=
  | Returned (status_code : Z)      (* [return response] *)
  | Exited                          (* [exit(1)] after 403, 401 or 429 *)
  | RaisedTimeout                   (* the bare [raise] once retries are used up *)
  | RaisedRequestException.         (* logged as "API request failed" and raised again *)

(** What the [try] body does with a response: the three status codes that
    end the program, then [raise_for_status], which raises on 400..599. *)
Definition handle_response (status_code : Z) : api_result :=
  if status_code =? 403 then Exited
  else if status_code =? 401 then Exited
  else if status_code =? 429 then Exited
  else if (400 <=? status_code) && (status_code <? 600) then RaisedRequestException
  else Returned status_code.

Record request_run : Type := RequestRun {
  result : api_result;
  attempts : nat;       (* calls of [requests.request] *)
  seconds_slept : nat   (* total of the [time.sleep(2)] calls *)
}.

Fixpoint make_api_request (network : nat → outcome) (attempt : nat)
    (retries : nat) : request_run :=
  match network attempt with
  | Response status_code => RequestRun (handle_response status_code) 1 0
  | TransportError => RequestRun RaisedRequestException 1 0
  | TimedOut =>
      match retries with
      | S retries' =>
          let r := make_api_request network (S attempt) retries' in
          RequestRun (result r) (S (attempts r)) (2 + seconds_slept r)
      | O => RequestRun RaisedTimeout 1 0
      end
  end.

Definition flaky_network (attempt : nat) : outcome :=
  match attempt with
  | 0%nat => TimedOut
  | 1%nat => TimedOut
  | _ => Response 200
  end.

(** ** Choosing the log file

    The loop of [setup_logging] that looks for the first log file name of
    the day that is not taken; [taken name] is [os.path.exists] of the
    name joined to the log directory. *)

Definition log_filename (today input_filename : string) (iteration : nat) : string :=
  today +:+ "-" +:+ input_filename +:+ "_" +:+ pretty iteration +:+ ".log".

Fixpoint free_log_filename (fuel : nat) (taken : string → bool)
    (today input_filename : string) (iteration : nat) : option string :=
  match fuel with
  | O => None
  | S fuel' =>
      let name := log_filename today input_filename iteration in
      if taken name
      then free_log_filename fuel' taken today input_filename (S iteration)
      else Some name
  end.

Definition two_logs_taken (name : string) : bool :=
  bool_decide (name = "2024-06-01-fscommander.py_1.log"
               ∨ name = "2024-06-01-fscommander.py_2.log").

(** ** The documents

    A ticket as it is decoded from JSON, where a custom field is kept as
    found: missing, [null], or a string.  The subscripts of version 1.0.3
    and of the DEBUG log line of [sort_tickets], and the [.get] with a
    default of the table display, tell the three apart. *)

Inductive field : Type :=
  | Absent
  | Null
  | Text (s : string).

Record raw_custom_fields : Type := RawCustomFields {
  raw_account_tier : field;
  raw_environment : field;
  raw_ticket_type : string
}.

Record raw_ticket : Type := RawTicket {
  raw_id : Z;
  raw_department_id : Z;
  raw_subject : string;
  raw_priority : pyval;
  raw_status : pyval;
  raw_is_escalated : bool;
  raw_custom : raw_custom_fields;
  raw_created_at : string
}.

(** [d.get(key)]: [None] for a missing key and for [null]. *)
Definition field_get (f : field) : option string :=
  match f with Text s => Some s | _ => None end.

(** [d[key]]: a [KeyError] (outer [None]) for a missing key, Python's
    [None] (inner [None]) for [null]. *)
Definition field_subscript (f : field) : option (option string) :=
  match f with
  | Absent => None
  | Null => Some None
  | Text s => Some (Some s)
  end.

(** The ticket as version 1.0.5 reads the same document. *)
Definition to_ticket (r : raw_ticket) : ticket :=
  {| id := raw_id r; department_id := raw_department_id r;
     subject := raw_subject r; priority := raw_priority r;
     status := raw_status r; is_escalated := raw_is_escalated r;
     custom_fields :=
       CustomFields (field_get (raw_account_tier (raw_custom r)))
                    (field_get (raw_environment (raw_custom r)))
                    (raw_ticket_type (raw_custom r));
     created_at := raw_created_at r; score := None; sort_key := None |}.

(** ** The ranker of version 1.0.3

    [fscommander-1.0.3.py] has the same table, but reads the two custom
    fields by subscript, without defaults, and sorts with
    [calculate_sort_key] itself as the key function, writing nothing into
    the tickets. *)

Module V1_0_3.

(** A key tuple that may hold Python's [None] among its components. *)
Fixpoint without_none (k : list (option pyval)) : option pytuple :=
  match k with
  | [] => Some []
  | Some v :: k' => match without_none k' with Some r => Some (v :: r) | None => None end
  | None :: _ => None
  end.

(** [scoring_map.get(score_key, 0)]: the components of the table's keys
    are strings and integers, so a tuple with a [None] in it is no key of
    the table. *)
Definition scoring_map_get (score_key : list (option pyval)) : Z :=
  match without_none score_key with
  | Some k => default 0 (SCORING_MAP !! k)
  | None => 0
  end.

(** The nested [calculate_sort_key(ticket)]; [None] is the [KeyError] of
    a subscript. *)
Definition calculate_sort_key (r : raw_ticket) : option (Z * string) :=
  match field_subscript (raw_account_tier (raw_custom r)),
        field_subscript (raw_environment (raw_custom r)) with
  | Some tier, Some env =>
      let score_key :=
        if raw_is_escalated r
        then [VStr <$> tier; Some (VStr "escalated"); VStr <$> env]
        else [VStr <$> tier; Some (raw_priority r); VStr <$> env;
              Some (VStr (raw_ticket_type (raw_custom r)))] in
      Some (- scoring_map_get score_key, raw_created_at r)
  | _, _ => None
  end.

(** [tickets.sort(key=calculate_sort_key)]: the keys of all tickets are
    computed first, and an exception in one of them ends the call. *)
Definition sort_tickets (rs : list raw_ticket) : option (list raw_ticket) :=
  if forallb (λ r, bool_decide (is_Some (calculate_sort_key r))) rs
  then Some (list_sort sort_key_lt (λ r, default (0, "") (calculate_sort_key r)) rs)
  else None.

End V1_0_3.

Definition raw_sample : list raw_ticket := [
  RawTicket 41 7 "mail queue stuck" (VInt 2) (VInt 2) false
    (RawCustomFields (Text "B") (Text "Lab") "Incident or Problem")
    "2024-07-02T00:00:00Z";
  RawTicket 42 7 "new mailbox" (VInt 1) (VInt 6) false
    (RawCustomFields (Text "A") (Text "Production") "Service request")
    "2024-07-01T00:00:00Z";
  RawTicket 43 8 "site down" (VInt 4) (VInt 2) true
    (RawCustomFields (Text "D") (Text "Production") "Incident or Problem")
    "2024-07-03T00:00:00Z"
].

Definition raw_null_tier : raw_ticket :=
  RawTicket 44 8 "password reset" (VInt 2) (VInt 2) false
    (RawCustomFields Null (Text "Production") "Incident or Problem")
    "2024-07-04T00:00:00Z".

Definition raw_no_environment : raw_ticket :=
  RawTicket 45 8 "password reset" (VInt 2) (VInt 2) false
    (RawCustomFields (Text "A") Absent "Incident or Problem")
    "2024-07-04T00:00:00Z".

(** ** The tier and environment cells of the two displays

    [display_as_table] reads the fields with [.get(key, default)], which
    falls back to the default only when the key is missing;
    [display_as_html] reads them with [.get(key)] and replaces [None] by
    the default; in the model [None] is Python's [None], which the table
    prints as it is. *)

(** [d.get(key, default)]. *)
Definition field_get_default (f : field) (d : string) : option string :=
  match f with
  | Absent => Some d
  | Null => None
  | Text s => Some s
  end.

Definition table_environment_cell (r : raw_ticket) : option string :=
  field_get_default (raw_environment (raw_custom r)) "Production".

Definition table_account_tier_cell (r : raw_ticket) : option string :=
  field_get_default (raw_account_tier (raw_custom r)) "C".

Definition environment_display (r : raw_ticket) : string :=
  match field_get (raw_environment (raw_custom r)) with
  | None => "Production"
  | Some environment => environment
  end.

Definition account_tier_display (r : raw_ticket) : string :=
  match field_get (raw_account_tier (raw_custom r)) with
  | None => "C"
  | Some account_tier => account_tier
  end.

(** Both custom fields of a ticket are strings. *)
Definition both_fields_text (r : raw_ticket) : Prop :=
  (∃ a, raw_account_tier (raw_custom r) = Text a) ∧
  (∃ e, raw_environment (raw_custom r) = Text e).

(** ** The ranker

    [sort_tickets] works on the ticket dictionaries themselves: its first
    loop writes two keys into each of them, the list is sorted in place,
    and at log level DEBUG a second loop logs one line per ticket.  That
    line reads the two custom fields by subscript, where
    [calculate_sort_key] reads them with [.get], so the dictionaries keep
    what the document had: a ticket dictionary is the document it was
    decoded from together with the two keys the ranker adds. *)

Record ticket_dict : Type := TicketDict {
  document : raw_ticket;
  dict_score : option Z;               (* key ['score'], absent until ranked *)
  dict_sort_key : option (Z * string)  (* key ['sort_key'], absent until ranked *)
}.

(** The dictionary as [calculate_sort_key] and the readability mapper
    read it: the custom fields through [.get], everything else as
    stored. *)
Definition as_ticket (d : ticket_dict) : ticket :=
  {| id := raw_id (document d); department_id := raw_department_id (document d);
     subject := raw_subject (document d); priority := raw_priority (document d);
     status := raw_status (document d);
     is_escalated := raw_is_escalated (document d);
     custom_fields :=
       CustomFields (field_get (raw_account_tier (raw_custom (document d))))
                    (field_get (raw_environment (raw_custom (document d))))
                    (raw_ticket_type (raw_custom (document d)));
     created_at := raw_created_at (document d);
     score := dict_score d; sort_key := dict_sort_key d |}.

(** The body of the first loop of [sort_tickets] for one ticket: both
    keys are written into the dictionary. *)
Definition set_score (d : ticket_dict) (k : Z * string) : ticket_dict :=
  {| document := document d; dict_score := Some (- k.1); dict_sort_key := Some k |}.

Definition decorate (d : ticket_dict) : ticket_dict :=
  set_score d (calculate_sort_key (as_ticket d)).1.

Fixpoint score_loop (ts : list ticket_dict) : list ticket_dict * list log_record :=
  match ts with
  | [] => ([], [])
  | t :: r =>
      let '(k, lg) := calculate_sort_key (as_ticket t) in
      let '(r', lg') := score_loop r in
      (set_score t k :: r', (lg ++ lg')%list)
  end.

(** [x['sort_key']] in the sort's key function.  Every ticket that
    reaches the sort has the key (lemma [score_loop_sort_key]); the
    default stands for the [KeyError] that cannot happen there. *)
Definition get_sort_key (d : ticket_dict) : Z * string :=
  default (0, "") (dict_sort_key d).

(** [str] of the values an f-string formats. *)
Definition py_str (v : pyval) : string :=
  match v with VInt z => pretty z | VStr s => s end.

Definition py_str_bool (b : bool) : string := if b then "True" else "False".

Definition py_str_option (o : option string) : string := default "None" o.

(** The argument of [logging.debug] in the second loop.  Its subscripts
    raise [KeyError] (here [None]) when the dictionary has no ['score'],
    no ['account_tier'] or no ['environment'] key; a field that is [null]
    is printed as [None]. *)
Definition debug_record (d : ticket_dict) : option log_record :=
  match dict_score d,
        field_subscript (raw_account_tier (raw_custom (document d))),
        field_subscript (raw_environment (raw_custom (document d))) with
  | Some s, Some tier, Some env =>
      Some (DEBUG,
            "Ticket ID: " +:+ pretty (raw_id (document d)) +:+
            ", Score: " +:+ pretty s +:+
            ", Created At: " +:+ raw_created_at (document d) +:+
            ", Tier: " +:+ py_str_option tier +:+
            ", Priority: " +:+ py_str (raw_priority (document d)) +:+
            ", Is Escalated: " +:+ py_str_bool (raw_is_escalated (document d)) +:+
            ", Environment: " +:+ py_str_option env +:+
            ", Type: " +:+ raw_ticket_type (raw_custom (document d)))
  | _, _, _ => None
  end.

(** The second loop: whether it ran to its end, and the records it
    logged; a [KeyError] ends it at the ticket that raises. *)
Fixpoint debug_loop (ts : list ticket_dict) : bool * list log_record :=
  match ts with
  | [] => (true, [])
  | t :: r =>
      match debug_record t with
      | None => (false, [])
      | Some record =>
          let '(completed, records) := debug_loop r in
          (completed, record :: records)
      end
  end.

(** [sort_tickets(tickets)]: the list it returns, or [None] when it
    raises, and the records it logged either way.  [debug] says whether
    the effective log level is DEBUG; [setup_logging] installs INFO, or
    DEBUG on [-l DEBUG], and warnings are recorded at both. *)
Definition sort_tickets_log (debug : bool) (ts : list ticket_dict) :
    option (list ticket_dict) * list log_record :=
  let '(scored, lg) := score_loop ts in
  let sorted := list_sort sort_key_lt get_sort_key scored in
  if debug
  then let '(completed, records) := debug_loop sorted in
       (if completed then Some sorted else None, (lg ++ records)%list)
  else (Some sorted, lg).

Definition sort_tickets (debug : bool) (ts : list ticket_dict) :
    option (list ticket_dict) :=
  (sort_tickets_log debug ts).1.

(** ** The pipeline of [main] between the ticket source and the
    presenter: the ranker, then the readability mapper.  The mapper reads
    and writes [status] and [priority] only, so it is applied to the
    dictionaries as [as_ticket] shows them. *)
Definition pipeline (debug : bool) (ts : list ticket_dict) : option (list ticket) :=
  match sort_tickets debug ts with
  | Some sorted => Some (make_status_priority_readable (map as_ticket sorted))
  | None => None
  end.

(** ** Definitions the statements about the ranker are written with *)

(** The dictionary has both custom field keys, with whatever value. *)
Definition has_custom_keys (d : ticket_dict) : Prop :=
  raw_account_tier (raw_custom (document d)) ≠ Absent ∧
  raw_environment (raw_custom (document d)) ≠ Absent.

#[global] Instance field_eq_dec : EqDecision field.
Proof. solve_decision. Defined.

#[global] Instance has_custom_keys_dec d : Decision (has_custom_keys d).
Proof. unfold has_custom_keys. apply _. Defined.

#[global] Instance raw_custom_fields_eq_dec : EqDecision raw_custom_fields.
Proof. solve_decision. Defined.

#[global] Instance raw_ticket_eq_dec : EqDecision raw_ticket.
Proof. solve_decision. Defined.

#[global] Instance ticket_dict_eq_dec : EqDecision ticket_dict.
Proof. solve_decision. Defined.

(** The list [sort_tickets] returns when it returns. *)
Definition ranking (ts : list ticket_dict) : list ticket_dict :=
  list_sort sort_key_lt get_sort_key (map decorate ts).

(** A document as it is decoded, before the ranker has seen it. *)
Definition fresh (r : raw_ticket) : ticket_dict := TicketDict r None None.

(** ** Sample ticket dictionaries *)

Definition mk_dict (i : Z) (tier : field) (p : Z) (env : field)
    (ty : string) (esc : bool) (created : string) : ticket_dict :=
  fresh (RawTicket i 7 "printer on fire" (VInt p) (VInt 2) esc
           (RawCustomFields tier env ty) created).



Definition urgent_dict : ticket_dict :=
  mk_dict 1 (Text "A") 4 (Text "Production") "Incident or Problem" false "2024-01-01T00:00:00Z".

Definition urgent_dict_ranked : ticket_dict :=
  TicketDict (document urgent_dict) (Some 76) (Some (-76, "2024-01-01T00:00:00Z")).

Definition urgent_ticket_out : ticket :=
  {| id := 1; department_id := 7; subject := "printer on fire";
     priority := VStr "Urgent"; status := VStr "Open"; is_escalated := false;
     custom_fields := CustomFields (Some "A") (Some "Production") "Incident or Problem";
     created_at := "2024-01-01T00:00:00Z";
     score := Some 76; sort_key := Some (-76, "2024-01-01T00:00:00Z") |}.

Definition request_a2 : ticket_dict :=
  mk_dict 25 (Text "A") 2 (Text "Production") "Service request" false "2024-02-01T12:00:00Z".

Definition escalated_c_lab : ticket_dict :=
  mk_dict 26 (Text "C") 1 (Text "Lab") "Service request" true "2024-02-01T13:00:00Z".

Definition incident_a3 : ticket_dict :=
  mk_dict 23 (Text "A") 3 (Text "Production") "Incident or Problem" false "2024-02-01T10:00:00Z".

Definition incident_a2_lab : ticket_dict :=
  mk_dict 22 (Text "A") 2 (Text "Lab") "Incident or Problem" false "2024-02-01T09:00:00Z".

(** Priority 2, "Incident or Problem", neither custom field in the
    document. *)
Definition incident_no_fields : ticket_dict :=
  mk_dict 27 Absent 2 Absent "Incident or Problem" false "2024-02-01T14:00:00Z".

Definition ranking_sample : list ticket_dict :=
  [request_a2; escalated_c_lab; incident_a3; incident_a2_lab].

(** A list with a ticket that lacks both custom field keys. *)
Definition sample_with_missing_keys : list ticket_dict :=
  [request_a2; incident_no_fields; incident_a3].

Definition unranked_sample : list ticket_dict := [
  mk_dict 31 (Text "Z") 1 (Text "Production") "Incident or Problem" false "2024-05-02T00:00:00Z";
  mk_dict 32 (Text "A") 9 (Text "Lab") "Service request" false "2024-05-01T00:00:00Z"
].

(** * Facts about the stable sort *)

Section ListSortFacts.
Context {A K : Type} `{EqDecision K} (lt : K → K → bool) (key : A → K).

(** What [<] on the keys has to satisfy: it is asymmetric, and "not
    greater than" is transitive. *)
Hypothesis lt_asym : ∀ a b, lt a b = true → lt b a = false.
Hypothesis ge_trans : ∀ a b c, lt b a = false → lt c b = false → lt c a = false.

Lemma lt_irrefl a : lt a a = false.
Proof. pose proof (lt_asym a a) as H. destruct (lt a a); auto. Qed.

Lemma insert_by_perm x l : insert_by lt key x l ≡ₚ x :: l.
Proof.
  induction l as [|y r IH]; simpl; [done|].
  destruct (lt (key y) (key x)); [|done].
  rewrite IH. apply Permutation_swap.
Qed.

Lemma list_sort_perm l : list_sort lt key l ≡ₚ l.
Proof.
  induction l as [|x l IH]; simpl; [done|].
  by rewrite insert_by_perm, IH.
Qed.

Lemma insert_by_sorted x l :
  StronglySorted (key_le lt key) l → StronglySorted (key_le lt key) (insert_by lt key x l).
Proof.
  induction 1 as [|y r Hr IH Hy]; simpl.
  - repeat constructor.
  - destruct (lt (key y) (key x)) eqn:E.
    + constructor; [done|].
      rewrite insert_by_perm. constructor; [|done].
      by apply lt_asym.
    + constructor; [by constructor|].
      constructor; [done|].
      eapply Forall_impl; [exact Hy|].
      intros z Hz. by apply (ge_trans (key x) (key y) (key z)).
Qed.

Lemma list_sort_sorted l : StronglySorted (key_le lt key) (list_sort lt key l).
Proof.
  induction l as [|x l IH]; simpl; [constructor|].
  by apply insert_by_sorted.
Qed.

(** Stability: the elements carrying one key keep their order. *)
Lemma insert_by_filter k x l :
  filter (λ y, key y = k) (insert_by lt key x l) = filter (λ y, key y = k) (x :: l).
Proof.
  induction l as [|y r IH]; simpl; [done|].
  destruct (lt (key y) (key x)) eqn:E; [|done].
  rewrite (filter_cons _ y), IH, !filter_cons.
  destruct (decide (key y = k)) as [Hy|Hy], (decide (key x = k)) as [Hx|Hx];
    try done.
  rewrite Hy, Hx, lt_irrefl in E. done.
Qed.

Lemma list_sort_stable k l :
  filter (λ y, key y = k) (list_sort lt key l) = filter (λ y, key y = k) l.
Proof.
  induction l as [|x l IH]; simpl; [done|].
  by rewrite insert_by_filter, !filter_cons, IH.
Qed.



(** On a total order of keys the stable sorted rearrangement of a list
    is unique, so every stable sort computes [list_sort]. *)
Hypothesis lt_antisym : ∀ a b, lt a b = false → lt b a = false → a = b.

Lemma stable_sorted_unique l1 l2 :
  l1 ≡ₚ l2 →
  StronglySorted (key_le lt key) l1 → StronglySorted (key_le lt key) l2 →
  (∀ k, filter (λ y, key y = k) l1 = filter (λ y, key y = k) l2) →
  l1 = l2.
Proof.
  revert l2. induction l1 as [|x r1 IH]; intros l2 Hp S1 S2 Hf.
  - by apply Permutation_nil in Hp.
  - destruct l2 as [|y r2]; [by apply Permutation_sym, Permutation_nil in Hp|].
    inversion S1 as [|? ? S1' F1]; inversion S2 as [|? ? S2' F2]; subst.
    assert (Hk : key x = key y).
    { assert (Hx : x ∈ y :: r2) by (rewrite <- Hp; left).
      assert (Hy : y ∈ x :: r1) by (rewrite Hp; left).
      apply elem_of_cons in Hx as [->|Hx]; [done|].
      apply elem_of_cons in Hy as [->|Hy]; [done|].
      rewrite Forall_forall in F1, F2.
      apply lt_antisym; [apply (F2 x Hx)|apply (F1 y Hy)]. }
    assert (x = y) as ->.
    { specialize (Hf (key x)). rewrite !filter_cons in Hf.
      rewrite decide_True in Hf by done.
      rewrite decide_True in Hf by done.
      congruence. }
    f_equal. apply IH; [by apply Permutation_cons_inv in Hp|done|done|].
    intros k. specialize (Hf k). rewrite !filter_cons in Hf.
    destruct (decide (key y = k)); congruence.
Qed.

Lemma list_sort_unique l l' :
  l' ≡ₚ l → StronglySorted (key_le lt key) l' →
  (∀ k, filter (λ y, key y = k) l' = filter (λ y, key y = k) l) →
  l' = list_sort lt key l.
Proof.
  intros Hp Hs Hf. apply stable_sorted_unique; [|done| |].
  - by rewrite list_sort_perm.
  - apply list_sort_sorted.
  - intros k. by rewrite list_sort_stable.
Qed.
End ListSortFacts.

(** * The order on sort keys *)

Lemma ascii_compare_lt_trans a b c :
  Ascii.compare a b = Lt → Ascii.compare b c = Lt → Ascii.compare a c = Lt.
Proof.
  unfold Ascii.compare. rewrite !N.compare_lt_iff. apply N.lt_trans.
Qed.

Lemma string_compare_lt_trans a b c :
  String.compare a b = Lt → String.compare b c = Lt → String.compare a c = Lt.
Proof.
  revert b c. induction a as [|x a IH]; intros [|y b] [|z c]; simpl; try done.
  destruct (Ascii.compare x y) eqn:Exy; try done;
    destruct (Ascii.compare y z) eqn:Eyz; try done; intros Hab Hbc.
  - apply Ascii.compare_eq_iff in Exy, Eyz. subst.
    assert (Ascii.compare z z = Eq) as ->; [|by eapply IH].
    destruct (Ascii.compare z z) eqn:E; [done| |];
      pose proof (Ascii.compare_antisym z z) as H; rewrite E in H; done.
  - apply Ascii.compare_eq_iff in Exy. subst. by rewrite Eyz.
  - apply Ascii.compare_eq_iff in Eyz. subst. by rewrite Exy.
  - by rewrite (ascii_compare_lt_trans x y z).
Qed.

Lemma string_compare_refl a : String.compare a a = Eq.
Proof.
  pose proof (String.compare_antisym a a) as H.
  destruct (String.compare a a); done.
Qed.

Lemma string_ltb_leb a b : String.ltb b a = false ↔ String.leb a b = true.
Proof.
  unfold String.ltb, String.leb. rewrite (String.compare_antisym a b).
  destruct (String.compare b a); simpl; split; done.
Qed.

Lemma string_leb_trans a b c :
  String.leb a b = true → String.leb b c = true → String.leb a c = true.
Proof.
  unfold String.leb.
  destruct (String.compare a b) eqn:Eab; try done;
    destruct (String.compare b c) eqn:Ebc; try done; intros _ _.
  - apply String.compare_eq_iff in Eab, Ebc. subst. by rewrite string_compare_refl.
  - apply String.compare_eq_iff in Eab. subst. by rewrite Ebc.
  - apply String.compare_eq_iff in Ebc. subst. by rewrite Eab.
  - by rewrite (string_compare_lt_trans a b c).
Qed.

(** [a < b] fails exactly when [b] is not after [a]. *)
Lemma sort_key_lt_false a b :
  sort_key_lt b a = false ↔
  a.1 < b.1 ∨ (a.1 = b.1 ∧ String.leb a.2 b.2 = true).
Proof.
  unfold sort_key_lt. rewrite orb_false_iff, andb_false_iff.
  rewrite Z.ltb_ge, Z.eqb_neq, string_ltb_leb.
  split.
  - intros [Hle [Hne|Hs]]; [left; lia|].
    destruct (decide (a.1 = b.1)); [by right|left; lia].
  - intros [Hlt|[He Hs]]; (split; [lia|]); [left; lia|by right].
Qed.

Lemma sort_key_lt_true a b :
  sort_key_lt a b = true ↔
  a.1 < b.1 ∨ (a.1 = b.1 ∧ String.ltb a.2 b.2 = true).
Proof.
  unfold sort_key_lt. rewrite orb_true_iff, andb_true_iff.
  by rewrite Z.ltb_lt, Z.eqb_eq.
Qed.

Lemma sort_key_lt_asym a b : sort_key_lt a b = true → sort_key_lt b a = false.
Proof.
  rewrite sort_key_lt_true, sort_key_lt_false.
  intros [?|[? Hs]]; [by left|right; split; [done|]].
  revert Hs. unfold String.ltb, String.leb.
  by destruct (String.compare a.2 b.2).
Qed.

Lemma sort_key_ge_trans a b c :
  sort_key_lt b a = false → sort_key_lt c b = false → sort_key_lt c a = false.
Proof.
  rewrite !sort_key_lt_false.
  intros [?|[? Hab]] [?|[? Hbc]]; try (left; lia).
  right. split; [lia|]. by apply (string_leb_trans _ b.2).
Qed.

Lemma sort_key_lt_antisym a b :
  sort_key_lt a b = false → sort_key_lt b a = false → a = b.
Proof.
  rewrite !sort_key_lt_false.
  intros [?|[? Hba]] [?|[? Hab]]; try lia.
  destruct a, b; simpl in *. f_equal; [done|].
  by apply String.leb_antisym.
Qed.

(** * The policy table *)

(** The literal has no repeated key, so reading it first-to-last or
    last-to-first gives the same dictionary. *)
Lemma SCORING_MAP_keys_nodup : NoDup SCORING_MAP_items.*1.
Proof. apply (bool_decide_unpack _). by vm_compute. Qed.

Lemma SCORING_MAP_size : size SCORING_MAP = 76%nat.
Proof.
  unfold SCORING_MAP.
  by rewrite map_size_list_to_map by apply SCORING_MAP_keys_nodup.
Qed.

Lemma SCORING_MAP_lookup_Some k v :
  SCORING_MAP !! k = Some v ↔ (k, v) ∈ SCORING_MAP_items.
Proof. symmetry. apply elem_of_list_to_map, SCORING_MAP_keys_nodup. Qed.

Lemma SCORING_MAP_items_range :
  Forall (λ kv : pytuple * Z, 1 ≤ kv.2 ≤ 76) SCORING_MAP_items.
Proof. apply (bool_decide_unpack _). by vm_compute. Qed.

Lemma SCORING_MAP_range k v : SCORING_MAP !! k = Some v → 1 ≤ v ≤ 76.
Proof.
  rewrite SCORING_MAP_lookup_Some. intros Hin.
  by apply (proj1 (Forall_forall _ _) SCORING_MAP_items_range (k, v)).
Qed.

Lemma SCORING_MAP_items_no_urgent_service_request :
  Forall (λ kv : pytuple * Z, ¬ urgent_service_request kv.1) SCORING_MAP_items.
Proof. apply (bool_decide_unpack _). by vm_compute. Qed.

Lemma SCORING_MAP_urgent_service_request k :
  urgent_service_request k → SCORING_MAP !! k = None.
Proof.
  intros Hk. destruct (SCORING_MAP !! k) as [v|] eqn:E; [|done].
  apply SCORING_MAP_lookup_Some in E.
  by destruct (proj1 (Forall_forall _ _)
    SCORING_MAP_items_no_urgent_service_request (k, v) E).
Qed.

(** * The score resolver *)

Lemma calculate_sort_key_fst t :
  (calculate_sort_key t).1 =
  (- default 0 (SCORING_MAP !! lookup_key t), created_at t).
Proof.
  unfold calculate_sort_key, lookup_key.
  by destruct (account_tier _), (environment _).
Qed.

Lemma ticket_score_lookup t :
  ticket_score t = default 0 (SCORING_MAP !! lookup_key t).
Proof.
  unfold ticket_score. rewrite calculate_sort_key_fst.
  cbn [fst]. apply Z.opp_involutive.
Qed.

Lemma ticket_score_range t : 0 ≤ ticket_score t ≤ 76.
Proof.
  rewrite ticket_score_lookup.
  destruct (SCORING_MAP !! lookup_key t) as [v|] eqn:E; simpl; [|lia].
  apply SCORING_MAP_range in E. lia.
Qed.

(** C1: every ticket gets an integer score between 0 and 76, namely the
    table's entry for the ticket's lookup key when the table has one and 0
    when it has none; a non-escalated tier-A priority-4 Production
    "Incident or Problem" ticket scores 76 and a non-escalated tier-E
    priority-1 Lab "Service request" ticket scores 1. *)
Theorem C1_score_is_table_entry_or_zero (t : ticket) :
  0 ≤ ticket_score t ≤ 76 ∧
  ticket_score t =
    match SCORING_MAP !! lookup_key t with Some v => v | None => 0 end ∧
  (∀ i d s st c sc sk,
     ticket_score (Ticket i d s (VInt 4) st false
       (CustomFields (Some "A") (Some "Production") "Incident or Problem")
       c sc sk) = 76) ∧
  (∀ i d s st c sc sk,
     ticket_score (Ticket i d s (VInt 1) st false
       (CustomFields (Some "E") (Some "Lab") "Service request")
       c sc sk) = 1).
Proof.
  split; [apply ticket_score_range|].
  split; [apply ticket_score_lookup|].
  split; intros; rewrite ticket_score_lookup; by vm_compute.
Qed.

(** C4, as stated, fails: an escalated tier-E ticket is not unranked, the
    table gives it 30. *)
Lemma C4_counterexample_escalated_tier_E :
  is_escalated escalated_tier_E = true ∧
  account_tier (custom_fields escalated_tier_E) = Some "E" ∧
  SCORING_MAP !! lookup_key escalated_tier_E = Some 30 ∧
  ticket_score escalated_tier_E = 30 ∧
  ticket_score escalated_tier_E ≠ 0.
Proof.
  assert (ticket_score escalated_tier_E = 30) as E
    by (rewrite ticket_score_lookup; by vm_compute).
  split; [reflexivity|]. split; [reflexivity|]. split; [by vm_compute|].
  split; [exact E|]. rewrite E. lia.
Qed.

(** C4 (amended): a ticket whose lookup key is not among the table's 76
    entries scores 0; so does every non-escalated priority-4 "Service
    request" ticket, whatever its tier (D and E included) and environment.
    Escalated tier-E tickets are in the table: they score 30 in Production
    and 29 in Lab. *)
Theorem C4_unlisted_key_scores_zero :
  size SCORING_MAP = 76%nat ∧
  (∀ t, SCORING_MAP !! lookup_key t = None → ticket_score t = 0) ∧
  (∀ i d s st tier env c sc sk,
     ticket_score (Ticket i d s (VInt 4) st false
       (CustomFields tier env "Service request") c sc sk) = 0) ∧
  (∀ i d s p st ty c sc sk,
     ticket_score (Ticket i d s p st true
       (CustomFields (Some "E") (Some "Production") ty) c sc sk) = 30) ∧
  (∀ i d s p st ty c sc sk,
     ticket_score (Ticket i d s p st true
       (CustomFields (Some "E") (Some "Lab") ty) c sc sk) = 29).
Proof.
  split; [apply SCORING_MAP_size|].
  split; [intros t E; by rewrite ticket_score_lookup, E|].
  split; [|split; intros; rewrite ticket_score_lookup; by vm_compute].
  intros. rewrite ticket_score_lookup.
  by rewrite SCORING_MAP_urgent_service_request.
Qed.

Lemma lookup_key_apply_defaults t : lookup_key (apply_defaults t) = lookup_key t.
Proof. unfold lookup_key, score_key. cbn. by destruct (is_escalated t). Qed.

Lemma calculate_sort_key_snd t :
  (calculate_sort_key t).2 = missing_field_warnings t.
Proof.
  unfold calculate_sort_key, missing_field_warnings.
  by destruct (account_tier _), (environment _).
Qed.

(** C6: for an escalated ticket the score is a function of tier and
    environment alone: two escalated tickets that agree on both score the
    same, whatever their priorities and types; escalated tier A in Lab
    scores 65. *)
Theorem C6_escalated_ignores_priority_and_type (t1 t2 : ticket) :
  is_escalated t1 = true →
  is_escalated t2 = true →
  account_tier (custom_fields t1) = account_tier (custom_fields t2) →
  environment (custom_fields t1) = environment (custom_fields t2) →
  ticket_score t1 = ticket_score t2 ∧
  (∀ i d s p st ty c sc sk,
     ticket_score (Ticket i d s p st true
       (CustomFields (Some "A") (Some "Lab") ty) c sc sk) = 65).
Proof.
  intros E1 E2 Ht He. split.
  - rewrite !ticket_score_lookup. unfold lookup_key, score_key.
    by rewrite E1, E2, Ht, He.
  - intros. rewrite ticket_score_lookup. by vm_compute.
Qed.

Lemma C6_witness :
  ticket_score (mk 1 (Some "A") 1 (Some "Lab") "Service request" true "2024-01-01T00:00:00Z") =
  ticket_score (mk 2 (Some "A") 4 (Some "Lab") "Incident or Problem" true "2024-02-01T00:00:00Z") ∧
  (∀ i d s p st ty c sc sk,
     ticket_score (Ticket i d s p st true
       (CustomFields (Some "A") (Some "Lab") ty) c sc sk) = 65).
Proof.
  apply (C6_escalated_ignores_priority_and_type
    (mk 1 (Some "A") 1 (Some "Lab") "Service request" true "2024-01-01T00:00:00Z")
    (mk 2 (Some "A") 4 (Some "Lab") "Incident or Problem" true "2024-02-01T00:00:00Z"));
  reflexivity.
Defined.

(** C5: a missing tier is scored as C and a missing environment as
    Production, with one warning logged per missing field; a non-escalated
    priority-2 "Incident or Problem" ticket with neither field scores 38
    and logs two warnings. *)
Theorem C5_defaults_before_scoring (t : ticket) :
  (calculate_sort_key t).1 = (calculate_sort_key (apply_defaults t)).1 ∧
  ticket_score t = ticket_score (apply_defaults t) ∧
  (calculate_sort_key (apply_defaults t)).2 = [] ∧
  (calculate_sort_key t).2 = missing_field_warnings t ∧
  length (calculate_sort_key t).2 = missing_fields t ∧
  (∀ i d s st c sc sk,
     let t38 := Ticket i d s (VInt 2) st false
                  (CustomFields None None "Incident or Problem") c sc sk in
     ticket_score t38 = 38 ∧
     (calculate_sort_key t38).2 = [warn_account_tier t38; warn_environment t38]).
Proof.
  assert ((calculate_sort_key t).1 = (calculate_sort_key (apply_defaults t)).1) as E.
  { rewrite !calculate_sort_key_fst. by rewrite lookup_key_apply_defaults. }
  split; [exact E|]. split; [unfold ticket_score; by rewrite E|].
  split; [by rewrite calculate_sort_key_snd|].
  split; [apply calculate_sort_key_snd|].
  split.
  - rewrite calculate_sort_key_snd. unfold missing_field_warnings, missing_fields.
    by destruct (account_tier _), (environment _).
  - intros. split; [rewrite ticket_score_lookup; by vm_compute|].
    by rewrite calculate_sort_key_snd.
Qed.

(** * The ranker *)

Lemma score_loop_fst ts : (score_loop ts).1 = map decorate ts.
Proof.
  induction ts as [|t r IH]; [done|]. cbn [score_loop map].
  unfold decorate at 1. rewrite <- IH.
  by destruct (calculate_sort_key (as_ticket t)), (score_loop r).
Qed.

(** The warnings of a run: each ticket's, in input order. *)
Lemma score_loop_snd ts :
  (score_loop ts).2 = concat (map (λ d, missing_field_warnings (as_ticket d)) ts).
Proof.
  induction ts as [|t r IH]; [done|]. cbn [score_loop map concat].
  rewrite <- IH, <- calculate_sort_key_snd.
  by destruct (calculate_sort_key (as_ticket t)), (score_loop r).
Qed.

Lemma score_loop_sort_key ts :
  Forall (λ t, dict_sort_key t = Some (get_sort_key t)) (score_loop ts).1.
Proof.
  rewrite score_loop_fst. apply Forall_forall. intros t Ht.
  apply list_elem_of_In, in_map_iff in Ht as (t0 & <- & _). reflexivity.
Qed.

(** The scoring reads neither ['score'] nor ['sort_key']. *)
Lemma calculate_sort_key_set_score d k :
  calculate_sort_key (as_ticket (set_score d k)) = calculate_sort_key (as_ticket d).
Proof. reflexivity. Qed.

Lemma decorate_decorate d : decorate (decorate d) = decorate d.
Proof. unfold decorate. by rewrite calculate_sort_key_set_score. Qed.

Lemma document_decorate d : document (decorate d) = document d.
Proof. reflexivity. Qed.

Lemma get_sort_key_decorate d :
  get_sort_key (decorate d) =
  (- ticket_score (as_ticket d), raw_created_at (document d)).
Proof.
  unfold get_sort_key, decorate, ticket_score.
  cbn [dict_sort_key set_score default from_option].
  rewrite calculate_sort_key_fst. cbn [fst]. by rewrite Z.opp_involutive.
Qed.

Lemma ticket_score_decorate d :
  ticket_score (as_ticket (decorate d)) = ticket_score (as_ticket d).
Proof. unfold ticket_score, decorate. by rewrite calculate_sort_key_set_score. Qed.

Lemma dict_score_decorate d :
  dict_score (decorate d) = Some (ticket_score (as_ticket d)).
Proof. reflexivity. Qed.

Lemma dict_sort_key_decorate d :
  dict_sort_key (decorate d) =
  Some (- ticket_score (as_ticket d), raw_created_at (document d)).
Proof.
  pose proof (get_sort_key_decorate d) as E. unfold get_sort_key in E.
  unfold decorate in *. cbn [dict_sort_key set_score default from_option] in *.
  f_equal. exact E.
Qed.

Lemma ranking_perm ts : ranking ts ≡ₚ map decorate ts.
Proof. apply list_sort_perm. Qed.

(** Every ticket of the ranking is a decorated ticket of the input. *)
Lemma elem_of_ranking t ts :
  t ∈ ranking ts ↔ ∃ t0, t0 ∈ ts ∧ t = decorate t0.
Proof.
  rewrite ranking_perm, list_elem_of_In, in_map_iff.
  split; intros (t0 & H1 & H2); exists t0.
  - by rewrite list_elem_of_In.
  - by rewrite <- list_elem_of_In.
Qed.

Lemma ranking_decorated t ts : t ∈ ranking ts → decorate t = t.
Proof.
  rewrite elem_of_ranking. intros (t0 & _ & ->). apply decorate_decorate.
Qed.

Lemma ranking_sorted ts :
  StronglySorted (key_le sort_key_lt get_sort_key) (ranking ts).
Proof.
  apply list_sort_sorted; [apply sort_key_lt_asym|apply sort_key_ge_trans].
Qed.


(** The insertion sort stands for any stable sort: a rearrangement of [l]
    that is in key order and keeps equal keys in input order is
    [list_sort l]. *)
Lemma stable_sort_is_list_sort (l l' : list ticket_dict) :
  l' ≡ₚ l →
  StronglySorted (key_le sort_key_lt get_sort_key) l' →
  (∀ k, filter (λ t, get_sort_key t = k) l' = filter (λ t, get_sort_key t = k) l) →
  l' = list_sort sort_key_lt get_sort_key l.
Proof.
  apply list_sort_unique.
  - apply sort_key_lt_asym.
  - apply sort_key_ge_trans.
  - apply sort_key_lt_antisym.
Qed.

(** ** When [sort_tickets] returns *)

Lemma debug_record_is_Some d :
  is_Some (dict_score d) → is_Some (debug_record d) ↔ has_custom_keys d.
Proof.
  intros [s Hs]. unfold debug_record, has_custom_keys. rewrite Hs.
  destruct (raw_account_tier _), (raw_environment _); cbn [field_subscript];
    split; try (intros [? ?]; done); try (intros [? [=]]); try by eexists.
Qed.

Lemma debug_loop_completed l :
  Forall (λ d, is_Some (dict_score d)) l →
  (debug_loop l).1 = true ↔ Forall has_custom_keys l.
Proof.
  induction 1 as [|d l Hd Hl IH]; cbn [debug_loop]; [by split|].
  rewrite Forall_cons, <- IH, <- (debug_record_is_Some d Hd).
  destruct (debug_record d) as [r|]; cbn [fst].
  - destruct (debug_loop l) as [c rs]. cbn [fst]. split; [by eauto|by intros [_ ?]].
  - split; [done|]. by intros [[? [=]] _].
Qed.

Lemma has_custom_keys_ranking ts :
  Forall has_custom_keys (ranking ts) ↔ Forall has_custom_keys ts.
Proof.
  rewrite ranking_perm, !Forall_forall. split.
  - intros H d Hd. apply (H (decorate d)).
    apply list_elem_of_In, in_map, list_elem_of_In, Hd.
  - intros H d Hd. apply list_elem_of_In, in_map_iff in Hd as (d0 & <- & Hd0).
    apply (H d0). by apply list_elem_of_In.
Qed.

Lemma ranking_scored ts : Forall (λ d, is_Some (dict_score d)) (ranking ts).
Proof.
  apply Forall_forall. intros d Hd. apply elem_of_ranking in Hd as (d0 & _ & ->).
  by eexists.
Qed.

Lemma sort_tickets_unfold debug ts :
  sort_tickets debug ts =
  if debug
  then if (debug_loop (ranking ts)).1 then Some (ranking ts) else None
  else Some (ranking ts).
Proof.
  unfold sort_tickets, sort_tickets_log, ranking. rewrite <- score_loop_fst.
  destruct (score_loop ts) as [scored lg]. cbn [fst].
  destruct debug; [|done]. by destruct (debug_loop _) as [[] ?].
Qed.

(** Below the DEBUG level, and at it when every ticket has both custom
    field keys, the call returns the ranking. *)
Lemma sort_tickets_returns debug ts :
  debug = false ∨ Forall has_custom_keys ts →
  sort_tickets debug ts = Some (ranking ts).
Proof.
  intros H. rewrite sort_tickets_unfold. destruct debug; [|done].
  destruct H as [|H]; [done|].
  apply (proj2 (has_custom_keys_ranking ts)) in H.
  apply (debug_loop_completed _ (ranking_scored ts)) in H. by rewrite H.
Qed.

(** At the DEBUG level a ticket without one of the keys makes it raise. *)
Lemma sort_tickets_raises ts :
  ¬ Forall has_custom_keys ts → sort_tickets true ts = None.
Proof.
  intros H. rewrite sort_tickets_unfold.
  destruct (debug_loop (ranking ts)).1 eqn:E; [|done].
  apply (debug_loop_completed _ (ranking_scored ts)) in E.
  apply (proj1 (has_custom_keys_ranking ts)) in E. by destruct H.
Qed.

Lemma StronglySorted_adjacent {A} (R : relation A) l i a b :
  StronglySorted R l → l !! i = Some a → l !! S i = Some b → R a b.
Proof.
  intros Hs. revert i. induction Hs as [|x l Hl IH Hx]; intros i Ha Hb; [done|].
  destruct i as [|i]; simpl in *.
  - injection Ha as ->. rewrite Forall_forall in Hx.
    apply Hx. by eapply list_elem_of_lookup_2.
  - by eapply IH.
Qed.

Lemma key_le_decorated t1 t2 :
  decorate t1 = t1 → decorate t2 = t2 →
  key_le sort_key_lt get_sort_key t1 t2 →
  ticket_score (as_ticket t2) ≤ ticket_score (as_ticket t1) ∧
  (ticket_score (as_ticket t1) = ticket_score (as_ticket t2) →
   String.leb (raw_created_at (document t1)) (raw_created_at (document t2)) = true).
Proof.
  intros H1 H2 Hle. unfold key_le in Hle.
  rewrite <- H1, <- H2, !get_sort_key_decorate in Hle.
  apply sort_key_lt_false in Hle. cbn [fst snd] in Hle.
  split; [lia|]. intros E. destruct Hle as [?|[_ ?]]; [lia|done].
Qed.

Lemma ranking_adjacent ts i t1 t2 :
  ranking ts !! i = Some t1 → ranking ts !! S i = Some t2 →
  dict_score t1 = Some (ticket_score (as_ticket t1)) ∧
  dict_score t2 = Some (ticket_score (as_ticket t2)) ∧
  ticket_score (as_ticket t2) ≤ ticket_score (as_ticket t1) ∧
  (ticket_score (as_ticket t1) = ticket_score (as_ticket t2) →
   String.leb (raw_created_at (document t1)) (raw_created_at (document t2)) = true).
Proof.
  intros H1 H2.
  pose proof (StronglySorted_adjacent _ _ _ _ _ (ranking_sorted ts) H1 H2) as Hle.
  apply list_elem_of_lookup_2, ranking_decorated in H1, H2.
  destruct (key_le_decorated t1 t2 H1 H2 Hle) as [Hs Hc].
  split; [rewrite <- H1 at 1; apply dict_score_decorate|].
  split; [rewrite <- H2 at 1; apply dict_score_decorate|]. by split.
Qed.


Example ex_sort :
  option_map (map (λ d, raw_id (document d)))
    (sort_tickets true [
      mk_dict 1 (Text "E") 1 (Text "Lab") "Service request" false "2024-01-03T00:00:00Z";
      mk_dict 2 (Text "A") 4 (Text "Production") "Incident or Problem" false "2024-01-02T00:00:00Z";
      mk_dict 3 Null 2 Null "Incident or Problem" false "2024-01-01T00:00:00Z";
      mk_dict 4 (Text "A") 4 (Text "Production") "Incident or Problem" false "2024-01-01T00:00:00Z"])
  = Some [4; 2; 3; 1].
Proof. by vm_compute. Qed.

Example ex_sort_missing_key :
  sort_tickets true sample_with_missing_keys = None ∧
  option_map (map (λ d, (raw_id (document d), dict_score d)))
    (sort_tickets false sample_with_missing_keys)
  = Some [(23, Some 60); (27, Some 38); (25, Some 36)].
Proof. split; by vm_compute. Qed.












(** * The pipeline *)

(** C9, as stated, fails: the ranker also writes ['sort_key'] into the
    ticket, and the pipeline replaces the ticket's numeric priority and
    status by their labels. *)
Lemma C9_counterexample_sort_key_and_labels :
  pipeline false [urgent_dict] = Some [urgent_ticket_out] ∧
  sort_tickets false [urgent_dict] = Some [urgent_dict_ranked] ∧
  dict_sort_key urgent_dict = None ∧
  dict_sort_key urgent_dict_ranked = Some (-76, "2024-01-01T00:00:00Z") ∧
  raw_priority (document urgent_dict) = VInt 4 ∧
  priority urgent_ticket_out = VStr "Urgent" ∧
  raw_status (document urgent_dict) = VInt 2 ∧
  status urgent_ticket_out = VStr "Open" ∧
  priority urgent_ticket_out ≠ priority (as_ticket urgent_dict) ∧
  status urgent_ticket_out ≠ status (as_ticket urgent_dict).
Proof.
  split; [by vm_compute|]. split; [by vm_compute|].
  repeat (split; [reflexivity|]). split; discriminate.
Qed.

Lemma make_readable_fields t :
  id (make_readable t) = id t ∧
  department_id (make_readable t) = department_id t ∧
  subject (make_readable t) = subject t ∧
  is_escalated (make_readable t) = is_escalated t ∧
  custom_fields (make_readable t) = custom_fields t ∧
  created_at (make_readable t) = created_at t ∧
  score (make_readable t) = score t ∧
  sort_key (make_readable t) = sort_key t.
Proof. repeat split. Qed.

(** C9 (amended): whenever the pipeline returns (below the DEBUG level
    always, at it when no ticket lacks a custom field key), its output is
    the input reordered, where each ticket has gained two fields, [score]
    and [sort_key] = [(-score, created_at)], and has had [status] and
    [priority] replaced by their labels; id, department_id, subject,
    is_escalated, the custom fields and created_at are unchanged.  The
    ranker on its own changes none of the incoming fields. *)
Theorem C9_pipeline_decorates_and_relabels (debug : bool) (ts : list ticket_dict) :
  debug = false ∨ Forall has_custom_keys ts →
  ∃ sorted out,
    sort_tickets debug ts = Some sorted ∧
    pipeline debug ts = Some out ∧
    (∃ p, p ≡ₚ ts ∧
          sorted = map decorate p ∧
          out = map (λ d, make_readable (as_ticket (decorate d))) p) ∧
    (∀ d, document (decorate d) = document d ∧
          dict_score (decorate d) = Some (ticket_score (as_ticket d)) ∧
          dict_sort_key (decorate d) =
            Some (- ticket_score (as_ticket d), raw_created_at (document d))) ∧
    (∀ d, let t' := make_readable (as_ticket (decorate d)) in
          id t' = raw_id (document d) ∧
          department_id t' = raw_department_id (document d) ∧
          subject t' = raw_subject (document d) ∧
          is_escalated t' = raw_is_escalated (document d) ∧
          custom_fields t' = custom_fields (as_ticket d) ∧
          created_at t' = raw_created_at (document d) ∧
          score t' = Some (ticket_score (as_ticket d)) ∧
          sort_key t' =
            Some (- ticket_score (as_ticket d), raw_created_at (document d)) ∧
          priority t' =
            VStr (default "Unknown Priority"
                    (priority_mapping !! raw_priority (document d))) ∧
          status t' =
            VStr (default "Unknown Status"
                    (status_mapping !! raw_status (document d)))).
Proof.
  intros H.
  exists (ranking ts), (make_status_priority_readable (map as_ticket (ranking ts))).
  split; [by apply sort_tickets_returns|].
  split; [unfold pipeline; by rewrite sort_tickets_returns|].
  split; [|split].
  - destruct (Permutation_map_inv decorate ts (ranking_perm ts))
      as (p & Hp & Hperm).
    exists p. split; [done|]. split; [done|].
    unfold make_status_priority_readable. by rewrite Hp, !map_map.
  - intros d. split; [reflexivity|]. split; [reflexivity|].
    apply dict_sort_key_decorate.
  - intros d t'. subst t'.
    destruct (make_readable_fields (as_ticket (decorate d)))
      as (-> & -> & -> & -> & -> & -> & -> & ->).
    repeat (split; [reflexivity|]).
    split; [apply dict_sort_key_decorate|]. split; reflexivity.
Qed.

Lemma C9_witness :
  ∃ sorted out,
    sort_tickets true [urgent_dict] = Some sorted ∧
    pipeline true [urgent_dict] = Some out ∧
    (∃ p, p ≡ₚ [urgent_dict] ∧
          sorted = map decorate p ∧
          out = map (λ d, make_readable (as_ticket (decorate d))) p) ∧
    (∀ d, document (decorate d) = document d ∧
          dict_score (decorate d) = Some (ticket_score (as_ticket d)) ∧
          dict_sort_key (decorate d) =
            Some (- ticket_score (as_ticket d), raw_created_at (document d))) ∧
    (∀ d, let t' := make_readable (as_ticket (decorate d)) in
          id t' = raw_id (document d) ∧
          department_id t' = raw_department_id (document d) ∧
          subject t' = raw_subject (document d) ∧
          is_escalated t' = raw_is_escalated (document d) ∧
          custom_fields t' = custom_fields (as_ticket d) ∧
          created_at t' = raw_created_at (document d) ∧
          score t' = Some (ticket_score (as_ticket d)) ∧
          sort_key t' =
            Some (- ticket_score (as_ticket d), raw_created_at (document d)) ∧
          priority t' =
            VStr (default "Unknown Priority"
                    (priority_mapping !! raw_priority (document d))) ∧
          status t' =
            VStr (default "Unknown Status"
                    (status_mapping !! raw_status (document d)))).
Proof.
  apply (C9_pipeline_decorates_and_relabels true [urgent_dict]).
  right. repeat (constructor; [split; discriminate|]). constructor.
Defined.

(** * The readability mapper *)

Lemma status_mapping_str s : status_mapping !! VStr s = None.
Proof.
  apply not_elem_of_list_to_map_1. cbn. intros H.
  repeat (apply elem_of_cons in H as [H|H]; [discriminate|]).
  by apply elem_of_nil in H.
Qed.

Lemma priority_mapping_str s : priority_mapping !! VStr s = None.
Proof.
  apply not_elem_of_list_to_map_1. cbn. intros H.
  repeat (apply elem_of_cons in H as [H|H]; [discriminate|]).
  by apply elem_of_nil in H.
Qed.

(** None of the labels is the fallback text. *)
Lemma status_mapping_label k lbl :
  status_mapping !! k = Some lbl → lbl ≠ "Unknown Status".
Proof.
  intros E. apply elem_of_list_to_map_2 in E.
  assert (Forall (λ kv : pyval * string, kv.2 ≠ "Unknown Status")
            status_mapping_items) as F
    by (apply (bool_decide_unpack _); by vm_compute).
  by apply (proj1 (Forall_forall _ _) F (k, lbl)).
Qed.

Lemma priority_mapping_label k lbl :
  priority_mapping !! k = Some lbl → lbl ≠ "Unknown Priority".
Proof.
  intros E. apply elem_of_list_to_map_2 in E.
  assert (Forall (λ kv : pyval * string, kv.2 ≠ "Unknown Priority")
            priority_mapping_items) as F
    by (apply (bool_decide_unpack _); by vm_compute).
  by apply (proj1 (Forall_forall _ _) F (k, lbl)).
Qed.

(** C10: [make_status_priority_readable] overwrites [status] and
    [priority] with their labels, and applying it again does not give the
    same result: a field that already holds a label is not a key of the
    table and becomes "Unknown Status" / "Unknown Priority", which is none
    of the labels. *)
Theorem C10_mapper_not_idempotent :
  (∀ t, status (make_readable t) =
          VStr (default "Unknown Status" (status_mapping !! status t)) ∧
        priority (make_readable t) =
          VStr (default "Unknown Priority" (priority_mapping !! priority t))) ∧
  (∀ t k lbl, status_mapping !! k = Some lbl → status t = VStr lbl →
        status (make_readable t) = VStr "Unknown Status" ∧
        status (make_readable t) ≠ status t) ∧
  (∀ t k lbl, priority_mapping !! k = Some lbl → priority t = VStr lbl →
        priority (make_readable t) = VStr "Unknown Priority" ∧
        priority (make_readable t) ≠ priority t) ∧
  (∀ ts t, t ∈ make_status_priority_readable (make_status_priority_readable ts) →
        status t = VStr "Unknown Status" ∧ priority t = VStr "Unknown Priority") ∧
  map (λ t, (status t, priority t)) (make_status_priority_readable [open_ticket]) =
    [(VStr "Open", VStr "High")] ∧
  make_status_priority_readable (make_status_priority_readable [open_ticket]) ≠
    make_status_priority_readable [open_ticket].
Proof.
  split; [intros t; split; reflexivity|].
  split; [|split; [|split; [|split]]].
  - intros t k lbl Hk Ht. cbn [status make_readable].
    rewrite Ht, status_mapping_str. cbn [default from_option id].
    split; [reflexivity|]. intros E. injection E as E.
    by apply (status_mapping_label k lbl).
  - intros t k lbl Hk Ht. cbn [priority make_readable].
    rewrite Ht, priority_mapping_str. cbn [default from_option id].
    split; [reflexivity|]. intros E. injection E as E.
    by apply (priority_mapping_label k lbl).
  - intros ts t. unfold make_status_priority_readable.
    rewrite map_map, list_elem_of_In, in_map_iff. intros (t0 & <- & _).
    cbn [status priority make_readable].
    by rewrite status_mapping_str, priority_mapping_str.
  - by vm_compute.
  - by vm_compute.
Qed.

(** * More on the policy table *)

Lemma SCORING_MAP_pairs (P : pytuple * Z → pytuple * Z → Prop) k1 v1 k2 v2 :
  Forall (λ a, Forall (P a) SCORING_MAP_items) SCORING_MAP_items →
  SCORING_MAP !! k1 = Some v1 → SCORING_MAP !! k2 = Some v2 →
  P (k1, v1) (k2, v2).
Proof.
  rewrite !SCORING_MAP_lookup_Some. intros F H1 H2.
  rewrite Forall_forall in F. specialize (F _ H1).
  rewrite Forall_forall in F. exact (F _ H2).
Qed.

Lemma SCORING_MAP_each (P : pytuple * Z → Prop) k v :
  Forall P SCORING_MAP_items → SCORING_MAP !! k = Some v → P (k, v).
Proof.
  rewrite SCORING_MAP_lookup_Some. intros F H.
  rewrite Forall_forall in F. exact (F _ H).
Qed.

Lemma ticket_score_ranked t :
  ticket_score t ≠ 0 → SCORING_MAP !! lookup_key t = Some (ticket_score t).
Proof.
  rewrite ticket_score_lookup.
  by destruct (SCORING_MAP !! lookup_key t).
Qed.

Lemma lookup_key_plain t :
  is_escalated t = false →
  lookup_key t = [VStr (tier_used t); priority t; VStr (environment_used t);
                  VStr (ticket_type (custom_fields t))].
Proof. unfold lookup_key, score_key. by intros ->. Qed.

Lemma lookup_key_escalated t :
  is_escalated t = true →
  lookup_key t = [VStr (tier_used t); VStr "escalated"; VStr (environment_used t)].
Proof. unfold lookup_key, score_key. by intros ->. Qed.

Lemma SCORING_MAP_values_distinct :
  Forall (λ a : pytuple * Z,
    Forall (λ b : pytuple * Z, a.2 = b.2 → a.1 = b.1) SCORING_MAP_items)
    SCORING_MAP_items.
Proof. apply (bool_decide_unpack _). by vm_compute. Qed.

Lemma SCORING_MAP_values_cover :
  Forall (λ v : Z, ∃ kv, kv ∈ SCORING_MAP_items ∧ kv.2 = v) (seqZ 1 76).
Proof.
  assert (Forall (λ v : Z, Exists (λ kv : pytuple * Z, kv.2 = v) SCORING_MAP_items)
            (seqZ 1 76)) as F
    by (apply (bool_decide_unpack _); by vm_compute).
  eapply Forall_impl; [exact F|]. intros v Hv. by apply Exists_exists in Hv.
Qed.

(** The ticket a key of the table is the lookup key of. *)
Lemma key_has_ticket k v :
  (k, v) ∈ SCORING_MAP_items → ∃ t, lookup_key t = k.
Proof.
  intros Hin.
  assert (Forall (λ kv : pytuple * Z,
            (∃ a e, kv.1 = [VStr a; VStr "escalated"; VStr e]) ∨
            (∃ a p e y, kv.1 = [VStr a; VInt p; VStr e; VStr y]))
          SCORING_MAP_items) as F.
  { repeat (constructor; [first [left; by eexists _, _
                                |right; by eexists _, _, _, _]|]).
    constructor. }
  rewrite Forall_forall in F.
  destruct (F _ Hin) as [(a & e & E)|(a & p & e & y & E)]; simpl in E; subst k.
  - by exists (Ticket 0 0 "" (VInt 0) (VInt 0) true
                 (CustomFields (Some a) (Some e) "") "" None None).
  - by exists (Ticket 0 0 "" (VInt p) (VInt 0) false
                 (CustomFields (Some a) (Some e) y) "" None None).
Qed.

(** X1: the table gives every score from 1 to 76 to exactly one key: two
    tickets with the same non-zero score have the same lookup key, and
    every score from 1 to 76 is the score of some ticket. *)
Theorem X1_scores_identify_keys :
  (∀ t1 t2, ticket_score t1 ≠ 0 → ticket_score t1 = ticket_score t2 →
            lookup_key t1 = lookup_key t2) ∧
  (∀ v, 1 ≤ v ≤ 76 → ∃ t, ticket_score t = v).
Proof.
  split.
  - intros t1 t2 Hnz E.
    pose proof (ticket_score_ranked t1 Hnz) as H1.
    assert (ticket_score t2 ≠ 0) as Hnz2 by (by rewrite <- E).
    pose proof (ticket_score_ranked t2 Hnz2) as H2.
    by apply (SCORING_MAP_pairs _ _ _ _ _ SCORING_MAP_values_distinct H1 H2).
  - intros v Hv.
    pose proof SCORING_MAP_values_cover as F. rewrite Forall_forall in F.
    destruct (F v) as ([k v'] & Hin & Hv'); [apply elem_of_seqZ; lia|].
    simpl in Hv'. subst v'.
    destruct (key_has_ticket k v Hin) as (t & Ht). exists t.
    rewrite ticket_score_lookup, Ht.
    apply SCORING_MAP_lookup_Some in Hin. by rewrite Hin.
Qed.

Lemma SCORING_MAP_lab_below_production :
  Forall (λ kv : pytuple * Z,
    kv.1 !! 2%nat = Some (VStr "Production") →
    SCORING_MAP !! <[2%nat := VStr "Lab"]> kv.1 = Some (kv.2 - 1))
    SCORING_MAP_items.
Proof. apply (bool_decide_unpack _). by vm_compute. Qed.

(** X2: Lab ranks directly under Production: of two tickets that differ
    only in environment, one in Production (or with none given) and ranked,
    the other in Lab, the Lab ticket scores exactly one less. *)
Theorem X2_lab_one_below_production (t1 t2 : ticket) :
  is_escalated t1 = is_escalated t2 →
  tier_used t1 = tier_used t2 →
  priority t1 = priority t2 →
  ticket_type (custom_fields t1) = ticket_type (custom_fields t2) →
  environment_used t1 = "Production" →
  environment_used t2 = "Lab" →
  ticket_score t1 ≠ 0 →
  ticket_score t2 = ticket_score t1 - 1.
Proof.
  intros Hesc Ht Hp Hy He1 He2 Hnz.
  pose proof (ticket_score_ranked t1 Hnz) as H1.
  pose proof (SCORING_MAP_each _ _ _ SCORING_MAP_lab_below_production H1) as H.
  cbn [fst snd] in H.
  assert (lookup_key t1 !! 2%nat = Some (VStr "Production")) as E1.
  { unfold lookup_key, score_key. fold (environment_used t1). rewrite He1.
    by destruct (is_escalated t1). }
  assert (<[2%nat := VStr "Lab"]> (lookup_key t1) = lookup_key t2) as E2.
  { unfold lookup_key, score_key.
    fold (tier_used t1) (tier_used t2) (environment_used t1) (environment_used t2).
    rewrite <- Hesc, <- Ht, <- Hp, <- Hy, He2.
    by destruct (is_escalated t1). }
  specialize (H E1). rewrite E2 in H.
  rewrite (ticket_score_lookup t2), H. reflexivity.
Qed.

Lemma X2_witness : ticket_score a2_incident_lab = ticket_score a2_incident_production - 1.
Proof.
  apply (X2_lab_one_below_production a2_incident_production a2_incident_lab);
    try reflexivity.
  rewrite ticket_score_lookup. by vm_compute.
Defined.

Lemma SCORING_MAP_priority_monotone :
  Forall (λ a : pytuple * Z,
    Forall (λ b : pytuple * Z,
      a.1 !! 0%nat = b.1 !! 0%nat → a.1 !! 2%nat = b.1 !! 2%nat →
      a.1 !! 3%nat = b.1 !! 3%nat → key_prio_lt a.1 b.1 → a.2 < b.2)
      SCORING_MAP_items) SCORING_MAP_items.
Proof. apply (bool_decide_unpack _). by vm_compute. Qed.

(** X3: among ranked, non-escalated tickets of one tier, environment and
    type, the higher priority gets the higher score. *)
Theorem X3_higher_priority_higher_score (t1 t2 : ticket) (p1 p2 : Z) :
  is_escalated t1 = false → is_escalated t2 = false →
  tier_used t1 = tier_used t2 →
  environment_used t1 = environment_used t2 →
  ticket_type (custom_fields t1) = ticket_type (custom_fields t2) →
  priority t1 = VInt p1 → priority t2 = VInt p2 → p1 < p2 →
  ticket_score t1 ≠ 0 → ticket_score t2 ≠ 0 →
  ticket_score t1 < ticket_score t2.
Proof.
  intros E1 E2 Ht He Hy Hp1 Hp2 Hlt Hnz1 Hnz2.
  pose proof (SCORING_MAP_pairs _ _ _ _ _ SCORING_MAP_priority_monotone
                (ticket_score_ranked t1 Hnz1) (ticket_score_ranked t2 Hnz2)) as H.
  cbn [fst snd] in H. rewrite (lookup_key_plain t1 E1), (lookup_key_plain t2 E2) in H.
  apply H; cbn; rewrite ?Ht, ?He, ?Hy, ?Hp1, ?Hp2; done.
Qed.

Lemma X3_witness : ticket_score a2_incident_production < ticket_score a3_incident_production.
Proof.
  apply (X3_higher_priority_higher_score
           a2_incident_production a3_incident_production 2 3);
    try reflexivity; rewrite ticket_score_lookup; by vm_compute.
Defined.

Lemma SCORING_MAP_tier_monotone :
  Forall (λ a : pytuple * Z,
    Forall (λ b : pytuple * Z,
      a.1 !! 1%nat = b.1 !! 1%nat → a.1 !! 2%nat = b.1 !! 2%nat →
      a.1 !! 3%nat = b.1 !! 3%nat → key_tier_lt a.1 b.1 → b.2 < a.2)
      SCORING_MAP_items) SCORING_MAP_items.
Proof. apply (bool_decide_unpack _). by vm_compute. Qed.

(** X4: among ranked tickets that agree on escalation, priority,
    environment and type, the tier that comes first in the alphabet gets
    the higher score (A over B over C over D over E). *)
Theorem X4_earlier_tier_higher_score (t1 t2 : ticket) :
  is_escalated t1 = is_escalated t2 →
  priority t1 = priority t2 →
  environment_used t1 = environment_used t2 →
  ticket_type (custom_fields t1) = ticket_type (custom_fields t2) →
  String.ltb (tier_used t1) (tier_used t2) = true →
  ticket_score t1 ≠ 0 → ticket_score t2 ≠ 0 →
  ticket_score t2 < ticket_score t1.
Proof.
  intros Hesc Hp He Hy Hlt Hnz1 Hnz2.
  pose proof (SCORING_MAP_pairs _ _ _ _ _ SCORING_MAP_tier_monotone
                (ticket_score_ranked t1 Hnz1) (ticket_score_ranked t2 Hnz2)) as H.
  cbn [fst snd] in H.
  destruct (is_escalated t1) eqn:E1; symmetry in Hesc.
  - rewrite (lookup_key_escalated t1 E1), (lookup_key_escalated t2 Hesc) in H.
    apply H; cbn; rewrite ?He; done.
  - rewrite (lookup_key_plain t1 E1), (lookup_key_plain t2 Hesc) in H.
    apply H; cbn; rewrite ?Hp, ?He, ?Hy; done.
Qed.

Lemma X4_witness : ticket_score d2_incident_production < ticket_score a2_incident_production.
Proof.
  apply (X4_earlier_tier_higher_score a2_incident_production d2_incident_production);
    try reflexivity; rewrite ticket_score_lookup; by vm_compute.
Defined.

Lemma SCORING_MAP_incident_over_request :
  Forall (λ a : pytuple * Z,
    Forall (λ b : pytuple * Z,
      a.1 !! 0%nat = b.1 !! 0%nat → a.1 !! 1%nat = b.1 !! 1%nat →
      a.1 !! 2%nat = b.1 !! 2%nat →
      a.1 !! 3%nat = Some (VStr "Incident or Problem") →
      b.1 !! 3%nat = Some (VStr "Service request") → b.2 < a.2)
      SCORING_MAP_items) SCORING_MAP_items.
Proof. apply (bool_decide_unpack _). by vm_compute. Qed.

(** X5: of two ranked, non-escalated tickets with the same tier, priority
    and environment, the "Incident or Problem" scores above the "Service
    request". *)
Theorem X5_incident_over_service_request (t1 t2 : ticket) :
  is_escalated t1 = false → is_escalated t2 = false →
  tier_used t1 = tier_used t2 →
  priority t1 = priority t2 →
  environment_used t1 = environment_used t2 →
  ticket_type (custom_fields t1) = "Incident or Problem" →
  ticket_type (custom_fields t2) = "Service request" →
  ticket_score t1 ≠ 0 → ticket_score t2 ≠ 0 →
  ticket_score t2 < ticket_score t1.
Proof.
  intros E1 E2 Ht Hp He Hy1 Hy2 Hnz1 Hnz2.
  pose proof (SCORING_MAP_pairs _ _ _ _ _ SCORING_MAP_incident_over_request
                (ticket_score_ranked t1 Hnz1) (ticket_score_ranked t2 Hnz2)) as H.
  cbn [fst snd] in H. rewrite (lookup_key_plain t1 E1), (lookup_key_plain t2 E2) in H.
  apply H; cbn; rewrite ?Ht, ?Hp, ?He, ?Hy1, ?Hy2; done.
Qed.

Lemma X5_witness : ticket_score a2_request_production < ticket_score a2_incident_production.
Proof.
  apply (X5_incident_over_service_request a2_incident_production a2_request_production);
    try reflexivity; rewrite ticket_score_lookup; by vm_compute.
Defined.

Lemma SCORING_MAP_below_urgent :
  Forall (λ kv : pytuple * Z,
    length kv.1 = 4%nat → kv.1 !! 1%nat ≠ Some (VInt 4) → kv.2 ≤ 60)
    SCORING_MAP_items.
Proof. apply (bool_decide_unpack _). by vm_compute. Qed.

Lemma SCORING_MAP_urgent :
  Forall (λ kv : pytuple * Z, kv.1 !! 1%nat = Some (VInt 4) → 67 ≤ kv.2)
    SCORING_MAP_items.
Proof. apply (bool_decide_unpack _). by vm_compute. Qed.

Lemma escalated_ABC_score t :
  is_escalated t = true →
  tier_used t = "A" ∨ tier_used t = "B" ∨ tier_used t = "C" →
  environment_used t = "Production" ∨ environment_used t = "Lab" →
  61 ≤ ticket_score t ≤ 66.
Proof.
  intros E Ht He. rewrite ticket_score_lookup, (lookup_key_escalated t E).
  destruct Ht as [->|[->| ->]], He as [->| ->]; by vm_compute.
Qed.

(** X6: where escalation lands: an escalated ticket of tier A, B or C
    scores above every non-escalated ticket whose priority is not 4, and
    below every ranked non-escalated ticket of priority 4. *)
Theorem X6_escalation_band (t1 t2 : ticket) :
  is_escalated t1 = true →
  tier_used t1 = "A" ∨ tier_used t1 = "B" ∨ tier_used t1 = "C" →
  environment_used t1 = "Production" ∨ environment_used t1 = "Lab" →
  is_escalated t2 = false →
  (priority t2 ≠ VInt 4 → ticket_score t2 < ticket_score t1) ∧
  (priority t2 = VInt 4 → ticket_score t2 ≠ 0 → ticket_score t1 < ticket_score t2).
Proof.
  intros E1 Ht He E2.
  pose proof (escalated_ABC_score t1 E1 Ht He) as Hband.
  split.
  - intros Hp. destruct (decide (ticket_score t2 = 0)) as [->|Hnz]; [lia|].
    pose proof (SCORING_MAP_each _ _ _ SCORING_MAP_below_urgent
                  (ticket_score_ranked t2 Hnz)) as H.
    cbn [fst snd] in H. rewrite (lookup_key_plain t2 E2) in H.
    assert (ticket_score t2 ≤ 60); [|lia].
    apply H; [reflexivity|]. cbn. congruence.
  - intros Hp Hnz.
    pose proof (SCORING_MAP_each _ _ _ SCORING_MAP_urgent
                  (ticket_score_ranked t2 Hnz)) as H.
    cbn [fst snd] in H. rewrite (lookup_key_plain t2 E2) in H.
    assert (67 ≤ ticket_score t2); [|lia].
    apply H. cbn. by rewrite Hp.
Qed.

Lemma X6_witness :
  (priority a3_incident_production ≠ VInt 4 →
   ticket_score a3_incident_production < ticket_score c_escalated_lab) ∧
  (priority a3_incident_production = VInt 4 →
   ticket_score a3_incident_production ≠ 0 →
   ticket_score c_escalated_lab < ticket_score a3_incident_production).
Proof.
  apply (X6_escalation_band c_escalated_lab a3_incident_production).
  - reflexivity.
  - right; right; reflexivity.
  - right; reflexivity.
  - reflexivity.
Defined.

(** * More on the ranker *)

Lemma ranking_sample_has_keys : Forall has_custom_keys ranking_sample.
Proof. repeat (constructor; [split; discriminate|]). constructor. Defined.

Lemma unranked_sample_has_keys : Forall has_custom_keys unranked_sample.
Proof. repeat (constructor; [split; discriminate|]). constructor. Defined.

(** X7: whenever [sort_tickets] returns (below the DEBUG level always, at
    it when no ticket lacks a custom field key), the ticket at the top of
    the ranking has the highest score of all the tickets handed in, and no
    ticket with that score is older. *)
Theorem X7_top_is_most_urgent (debug : bool) (ts : list ticket_dict) :
  debug = false ∨ Forall has_custom_keys ts →
  ∃ out, sort_tickets debug ts = Some out ∧
    ∀ t rest t0, out = t :: rest → t0 ∈ ts →
      ticket_score (as_ticket t0) ≤ ticket_score (as_ticket t) ∧
      (ticket_score (as_ticket t0) = ticket_score (as_ticket t) →
       String.leb (raw_created_at (document t))
                  (raw_created_at (document t0)) = true).
Proof.
  intros H. exists (ranking ts). split; [by apply sort_tickets_returns|].
  intros t rest t0 Hs Hin.
  assert (decorate t0 ∈ ranking ts) as Hd
    by (apply elem_of_ranking; by exists t0).
  assert (t ∈ ranking ts) as Ht by (rewrite Hs; left).
  pose proof (ranking_decorated _ _ Ht) as Dt.
  pose proof (ranking_sorted ts) as Hsorted. rewrite Hs in Hsorted, Hd.
  apply StronglySorted_inv in Hsorted as [_ Hall].
  rewrite <- (ticket_score_decorate t0), <- (document_decorate t0).
  apply elem_of_cons in Hd as [->|Hd].
  - split; [lia|]. intros _. unfold String.leb. by rewrite string_compare_refl.
  - rewrite Forall_forall in Hall.
    destruct (key_le_decorated t (decorate t0) Dt (decorate_decorate t0)
                (Hall _ Hd)) as [H1 H2].
    split; [done|]. intros E. by apply H2.
Qed.

Lemma X7_witness :
  ∃ out, sort_tickets true ranking_sample = Some out ∧
    ∀ t rest t0, out = t :: rest → t0 ∈ ranking_sample →
      ticket_score (as_ticket t0) ≤ ticket_score (as_ticket t) ∧
      (ticket_score (as_ticket t0) = ticket_score (as_ticket t) →
       String.leb (raw_created_at (document t))
                  (raw_created_at (document t0)) = true).
Proof.
  apply (X7_top_is_most_urgent true ranking_sample).
  right. exact ranking_sample_has_keys.
Defined.

(** X8: when every ticket gets the same score (all of them unranked, say)
    and [sort_tickets] returns (below the DEBUG level always, at it when
    no ticket lacks a custom field key), the ranking is by creation time
    alone, oldest first. *)
Theorem X8_equal_scores_oldest_first (debug : bool) (ts : list ticket_dict) (s : Z) :
  debug = false ∨ Forall has_custom_keys ts →
  (∀ t, t ∈ ts → ticket_score (as_ticket t) = s) →
  ∃ out, sort_tickets debug ts = Some out ∧
    StronglySorted
      (λ t1 t2, String.leb (raw_created_at (document t1))
                           (raw_created_at (document t2)) = true) out.
Proof.
  intros H Hall. exists (ranking ts). split; [by apply sort_tickets_returns|].
  assert (Forall (λ t, decorate t = t ∧ ticket_score (as_ticket t) = s)
            (ranking ts)) as F.
  { apply Forall_forall. intros t Ht. split; [by eapply ranking_decorated|].
    apply elem_of_ranking in Ht as (t0 & Ht0 & ->).
    rewrite ticket_score_decorate. by apply Hall. }
  pose proof (ranking_sorted ts) as Hs.
  induction Hs as [|t l Hl IH Ht]; [constructor|].
  apply Forall_cons in F as [[Dt St] F].
  constructor; [by apply IH|].
  rewrite Forall_forall in Ht, F. apply Forall_forall. intros t' Ht'.
  destruct (F _ Ht') as [Dt' St'].
  apply (key_le_decorated t t' Dt Dt' (Ht _ Ht')). congruence.
Qed.

Lemma X8_witness :
  ∃ out, sort_tickets true unranked_sample = Some out ∧
    StronglySorted
      (λ t1 t2, String.leb (raw_created_at (document t1))
                           (raw_created_at (document t2)) = true) out.
Proof.
  apply (X8_equal_scores_oldest_first true unranked_sample 0).
  - right. exact unranked_sample_has_keys.
  - intros t Ht. unfold unranked_sample in Ht.
    apply elem_of_cons in Ht as [->|Ht]; [rewrite ticket_score_lookup; by vm_compute|].
    apply elem_of_cons in Ht as [->|Ht]; [rewrite ticket_score_lookup; by vm_compute|].
    by apply elem_of_nil in Ht.
Defined.

Lemma filter_key_at_most_one {A K} `{EqDecision K} (key : A → K) (k : K) l :
  NoDup (map key l) → (length (filter (λ x, key x = k) l) ≤ 1)%nat.
Proof.
  induction l as [|x l IH]; intros Hnd; [simpl; lia|].
  cbn [map] in Hnd. apply NoDup_cons in Hnd as [Hx Hnd].
  rewrite filter_cons. destruct (decide (key x = k)) as [<-|]; [|by apply IH].
  assert (filter (λ y, key y = key x) l = []) as ->; [|simpl; lia].
  clear IH Hnd. induction l as [|y l IH]; [done|].
  rewrite filter_cons. destruct (decide (key y = key x)) as [E|_].
  - exfalso. apply Hx. rewrite <- E. cbn [map]. left.
  - apply IH. intros Hin. apply Hx. cbn [map]. by right.
Qed.

Lemma Permutation_short {A} (l1 l2 : list A) :
  l1 ≡ₚ l2 → (length l1 ≤ 1)%nat → l1 = l2.
Proof.
  intros Hp Hl. destruct l1 as [|x [|y l1]]; simpl in Hl; [| |lia].
  - by apply Permutation_nil in Hp.
  - by apply Permutation_singleton_l in Hp.
Qed.

Lemma NoDup_map_finer {A B C} (f : A → B) (g : A → C) (l : list A) :
  (∀ x y, g x = g y → f x = f y) → NoDup (map f l) → NoDup (map g l).
Proof.
  intros Hfg. induction l as [|x l IH]; cbn [map]; [constructor|].
  rewrite !NoDup_cons. intros [Hx Hnd]. split; [|by apply IH].
  rewrite list_elem_of_In, in_map_iff. intros (y & E & Hy). apply Hx.
  rewrite list_elem_of_In, in_map_iff. exists y. split; [by apply Hfg|done].
Qed.

Lemma ranking_Permutation ts ts' :
  ts ≡ₚ ts' →
  NoDup (map (λ t, (ticket_score (as_ticket t), raw_created_at (document t))) ts) →
  ranking ts = ranking ts'.
Proof.
  intros Hp Hnd0.
  assert (NoDup (map (λ t, get_sort_key (decorate t)) ts)) as Hnd.
  { apply (NoDup_map_finer
             (λ t, (ticket_score (as_ticket t), raw_created_at (document t))));
      [|done].
    intros x y. rewrite !get_sort_key_decorate. intros E.
    injection E as E1 E2. f_equal; [lia|done]. }
  apply (stable_sorted_unique sort_key_lt get_sort_key).
  - apply sort_key_lt_antisym.
  - rewrite !ranking_perm. by apply Permutation_map.
  - apply ranking_sorted.
  - apply ranking_sorted.
  - intros k. unfold ranking.
    rewrite !list_sort_stable by (apply sort_key_lt_asym || apply sort_key_ge_trans).
    apply Permutation_short.
    + apply filter_Permutation. by apply Permutation_map.
    + apply filter_key_at_most_one. by rewrite map_map.
Qed.

(** X9: when no two tickets share both score and creation time, the
    ranking does not depend on the order the tickets arrive in: whenever
    [sort_tickets] returns on a list (below the DEBUG level always, at it
    when no ticket lacks a custom field key), it returns the same ranking
    on every rearrangement of the list. *)
Theorem X9_arrival_order_irrelevant (debug : bool) (ts ts' : list ticket_dict) :
  debug = false ∨ Forall has_custom_keys ts →
  ts ≡ₚ ts' →
  NoDup (map (λ t, (ticket_score (as_ticket t), raw_created_at (document t))) ts) →
  ∃ out, sort_tickets debug ts = Some out ∧ sort_tickets debug ts' = Some out.
Proof.
  intros H Hp Hnd. exists (ranking ts). split; [by apply sort_tickets_returns|].
  rewrite (ranking_Permutation ts ts' Hp Hnd). apply sort_tickets_returns.
  destruct H as [H|H]; [by left|right]. by rewrite <- Hp.
Qed.

Lemma X9_witness :
  ∃ out, sort_tickets true ranking_sample = Some out ∧
         sort_tickets true (reverse ranking_sample) = Some out.
Proof.
  apply (X9_arrival_order_irrelevant true ranking_sample (reverse ranking_sample)).
  - right. exact ranking_sample_has_keys.
  - by rewrite reverse_Permutation.
  - apply (bool_decide_unpack _). by vm_compute.
Defined.

Lemma debug_record_level d r : debug_record d = Some r → r.1 = DEBUG.
Proof.
  unfold debug_record. destruct (dict_score d); [|done].
  destruct (field_subscript (raw_account_tier _)); [|done].
  destruct (field_subscript (raw_environment _)); [|done].
  by intros [= <-].
Qed.

Lemma debug_loop_records l :
  Forall (λ r : log_record, r.1 = DEBUG) (debug_loop l).2.
Proof.
  induction l as [|d l IH]; cbn [debug_loop]; [constructor|].
  destruct (debug_record d) as [r|] eqn:Er; [|constructor].
  destruct (debug_loop l) as [c records]. cbn [snd] in *.
  constructor; [by eapply debug_record_level|done].
Qed.

(** X26: [sort_tickets] returns exactly when the log level is not DEBUG
    or every ticket has both the [account_tier] and the [environment] key
    (with any value, [null] included); at the DEBUG level one ticket
    without one of the keys makes the call raise a [KeyError], and this
    after all tickets have been scored, with their warnings logged. *)
Theorem X26_debug_level_needs_custom_field_keys (debug : bool)
    (ts : list ticket_dict) :
  (is_Some (sort_tickets debug ts) ↔ debug = false ∨ Forall has_custom_keys ts) ∧
  (sort_tickets debug ts = None ↔ debug = true ∧ ¬ Forall has_custom_keys ts) ∧
  ∃ records,
    (sort_tickets_log debug ts).2 =
      (concat (map (λ d, missing_field_warnings (as_ticket d)) ts) ++ records)%list ∧
    Forall (λ r : log_record, r.1 = DEBUG) records.
Proof.
  split; [|split].
  - split; [|intros H; rewrite sort_tickets_returns by done; by eexists].
    intros Hs. destruct debug; [|by left]. right.
    destruct (decide (Forall has_custom_keys ts)) as [|Hn]; [done|].
    rewrite (sort_tickets_raises ts Hn) in Hs. by destruct Hs.
  - split.
    + intros Hs. destruct debug.
      * split; [done|]. intros H.
        by rewrite sort_tickets_returns in Hs by (by right).
      * by rewrite sort_tickets_returns in Hs by (by left).
    + intros [-> Hn]. by apply sort_tickets_raises.
  - unfold sort_tickets_log. rewrite <- score_loop_snd.
    destruct (score_loop ts) as [scored lg]. cbn [snd].
    destruct debug; [|exists []; by rewrite app_nil_r].
    pose proof (debug_loop_records (list_sort sort_key_lt get_sort_key scored)) as F.
    destruct (debug_loop _) as [c records]. by exists records.
Qed.

(** * Ranker and mapper together *)

Lemma SCORING_MAP_items_shape :
  Forall (λ kv : pytuple * Z,
    (∃ a e, kv.1 = [VStr a; VStr "escalated"; VStr e]) ∨
    (∃ a p e y, kv.1 = [VStr a; VInt p; VStr e; VStr y]))
    SCORING_MAP_items.
Proof.
  repeat (constructor; [first [left; by eexists _, _
                              |right; by eexists _, _, _, _]|]).
  constructor.
Qed.

Lemma SCORING_MAP_text_priority a s e y :
  SCORING_MAP !! [VStr a; VStr s; VStr e; VStr y] = None.
Proof.
  destruct (SCORING_MAP !! _) as [v|] eqn:E; [|done].
  pose proof (SCORING_MAP_each _ _ _ SCORING_MAP_items_shape E) as H.
  by destruct H as [(? & ? & ?)|(? & ? & ? & ? & ?)].
Qed.

(** X10: the ranker has to run before the readability mapper, as [main]
    runs them: once [priority] holds a label, every non-escalated ticket
    scores 0, while an escalated ticket keeps its score. *)
Theorem X10_mapped_tickets_lose_their_score :
  (∀ t, is_escalated t = false → ticket_score (make_readable t) = 0) ∧
  (∀ t, is_escalated t = true → ticket_score (make_readable t) = ticket_score t).
Proof.
  split; intros t E; rewrite !ticket_score_lookup.
  - rewrite (lookup_key_plain (make_readable t)) by exact E.
    cbn [priority make_readable]. by rewrite SCORING_MAP_text_priority.
  - rewrite (lookup_key_escalated (make_readable t)) by exact E.
    by rewrite (lookup_key_escalated t E).
Qed.

Lemma lookup_map {A B} (f : A → B) (l : list A) i y :
  map f l !! i = Some y → ∃ x, l !! i = Some x ∧ y = f x.
Proof.
  revert i. induction l as [|x l IH]; intros [|i]; cbn; try done.
  - intros [= <-]. by exists x.
  - apply IH.
Qed.

(** X11: what [main] hands to the presenter is still in rank order:
    whenever the pipeline returns (below the DEBUG level always, at it
    when no ticket lacks a custom field key), the stored score does not go
    up from one ticket of its output to the next, and between equal
    scores the creation time does not go down. *)
Theorem X11_pipeline_output_in_rank_order (debug : bool) (ts : list ticket_dict) :
  debug = false ∨ Forall has_custom_keys ts →
  ∃ out, pipeline debug ts = Some out ∧
    ∀ i t1 t2, out !! i = Some t1 → out !! S i = Some t2 →
      ∃ s1 s2, score t1 = Some s1 ∧ score t2 = Some s2 ∧ s2 ≤ s1 ∧
               (s1 = s2 → String.leb (created_at t1) (created_at t2) = true).
Proof.
  intros H.
  exists (make_status_priority_readable (map as_ticket (ranking ts))).
  split; [unfold pipeline; by rewrite sort_tickets_returns|].
  unfold make_status_priority_readable. intros i t1 t2 H1 H2.
  apply lookup_map in H1 as (v1 & H1 & ->), H2 as (v2 & H2 & ->).
  apply lookup_map in H1 as (u1 & H1 & ->), H2 as (u2 & H2 & ->).
  destruct (ranking_adjacent ts i u1 u2 H1 H2) as (S1 & S2 & Hle & Hc).
  exists (ticket_score (as_ticket u1)), (ticket_score (as_ticket u2)).
  cbn [score created_at make_readable as_ticket]. by repeat split.
Qed.

Lemma X11_witness :
  ∃ out, pipeline true ranking_sample = Some out ∧
    ∀ i t1 t2, out !! i = Some t1 → out !! S i = Some t2 →
      ∃ s1 s2, score t1 = Some s1 ∧ score t2 = Some s2 ∧ s2 ≤ s1 ∧
               (s1 = s2 → String.leb (created_at t1) (created_at t2) = true).
Proof.
  apply (X11_pipeline_output_in_rank_order true ranking_sample).
  right. exact ranking_sample_has_keys.
Defined.

(** * More on the readability mapper *)

Lemma status_mapping_in_range z :
  2 ≤ z ≤ 14 → ∃ lbl, status_mapping !! VInt z = Some lbl.
Proof.
  intros Hz.
  assert (Forall (λ z, is_Some (status_mapping !! VInt z)) (seqZ 2 13)) as F
    by (apply (bool_decide_unpack _); by vm_compute).
  rewrite Forall_forall in F. apply F, elem_of_seqZ. lia.
Qed.

Lemma status_mapping_out_of_range z :
  ¬ 2 ≤ z ≤ 14 → status_mapping !! VInt z = None.
Proof.
  intros Hz. apply not_elem_of_list_to_map_1. cbn. intros H.
  repeat (apply elem_of_cons in H as [H|H]; [injection H as ->; lia|]).
  by apply elem_of_nil in H.
Qed.

Lemma priority_mapping_in_range z :
  1 ≤ z ≤ 4 → ∃ lbl, priority_mapping !! VInt z = Some lbl.
Proof.
  intros Hz.
  assert (Forall (λ z, is_Some (priority_mapping !! VInt z)) (seqZ 1 4)) as F
    by (apply (bool_decide_unpack _); by vm_compute).
  rewrite Forall_forall in F. apply F, elem_of_seqZ. lia.
Qed.

Lemma priority_mapping_out_of_range z :
  ¬ 1 ≤ z ≤ 4 → priority_mapping !! VInt z = None.
Proof.
  intros Hz. apply not_elem_of_list_to_map_1. cbn. intros H.
  repeat (apply elem_of_cons in H as [H|H]; [injection H as ->; lia|]).
  by apply elem_of_nil in H.
Qed.

(** X12: a numeric status is shown as "Unknown Status" exactly when it is
    outside 2..14, and a numeric priority as "Unknown Priority" exactly
    when it is outside 1..4. *)
Theorem X12_unknown_exactly_outside_the_tables :
  (∀ t z, status t = VInt z →
     (status (make_readable t) = VStr "Unknown Status" ↔ ¬ 2 ≤ z ≤ 14)) ∧
  (∀ t z, priority t = VInt z →
     (priority (make_readable t) = VStr "Unknown Priority" ↔ ¬ 1 ≤ z ≤ 4)).
Proof.
  split; intros t z Hz; cbn [status priority make_readable]; rewrite Hz.
  - split.
    + intros E Hr. destruct (status_mapping_in_range z Hr) as (lbl & Hl).
      rewrite Hl in E. injection E as E. by apply (status_mapping_label _ _ Hl).
    + intros Hr. by rewrite status_mapping_out_of_range.
  - split.
    + intros E Hr. destruct (priority_mapping_in_range z Hr) as (lbl & Hl).
      rewrite Hl in E. injection E as E. by apply (priority_mapping_label _ _ Hl).
    + intros Hr. by rewrite priority_mapping_out_of_range.
Qed.

Lemma status_mapping_injective k1 k2 lbl :
  status_mapping !! k1 = Some lbl → status_mapping !! k2 = Some lbl → k1 = k2.
Proof.
  intros H1 H2. apply elem_of_list_to_map_2 in H1, H2.
  assert (Forall (λ a : pyval * string,
            Forall (λ b : pyval * string, a.2 = b.2 → a.1 = b.1)
              status_mapping_items) status_mapping_items) as F
    by (apply (bool_decide_unpack _); by vm_compute).
  rewrite Forall_forall in F. specialize (F _ H1).
  rewrite Forall_forall in F. by apply (F _ H2).
Qed.

Lemma priority_mapping_injective k1 k2 lbl :
  priority_mapping !! k1 = Some lbl → priority_mapping !! k2 = Some lbl → k1 = k2.
Proof.
  intros H1 H2. apply elem_of_list_to_map_2 in H1, H2.
  assert (Forall (λ a : pyval * string,
            Forall (λ b : pyval * string, a.2 = b.2 → a.1 = b.1)
              priority_mapping_items) priority_mapping_items) as F
    by (apply (bool_decide_unpack _); by vm_compute).
  rewrite Forall_forall in F. specialize (F _ H1).
  rewrite Forall_forall in F. by apply (F _ H2).
Qed.

(** X13: the labels tell the codes apart: two tickets shown with the same
    status label, other than "Unknown Status", had the same status, and
    likewise for the priority. *)
Theorem X13_label_identifies_code :
  (∀ t1 t2, status (make_readable t1) = status (make_readable t2) →
     status (make_readable t1) ≠ VStr "Unknown Status" →
     status t1 = status t2) ∧
  (∀ t1 t2, priority (make_readable t1) = priority (make_readable t2) →
     priority (make_readable t1) ≠ VStr "Unknown Priority" →
     priority t1 = priority t2).
Proof.
  split; intros t1 t2; cbn [status priority make_readable]; intros E Hn.
  - destruct (status_mapping !! status t1) as [l1|] eqn:H1; [|done].
    destruct (status_mapping !! status t2) as [l2|] eqn:H2;
      cbn in E; injection E as E; subst.
    + by apply (status_mapping_injective _ _ _ H1 H2).
    + by destruct (status_mapping_label _ _ H1).
  - destruct (priority_mapping !! priority t1) as [l1|] eqn:H1; [|done].
    destruct (priority_mapping !! priority t2) as [l2|] eqn:H2;
      cbn in E; injection E as E; subst.
    + by apply (priority_mapping_injective _ _ _ H1 H2).
    + by destruct (priority_mapping_label _ _ H1).
Qed.

(** * The display helpers *)

Lemma string_length_app (s1 s2 : string) :
  String.length (s1 +:+ s2) = (String.length s1 + String.length s2)%nat.
Proof. induction s1 as [|c s1 IH]; simpl; [done|]. f_equal. exact IH. Qed.

Lemma string_length_substring_0 (n : nat) (s : string) :
  String.length (String.substring 0 n s) = Nat.min n (String.length s).
Proof.
  revert s. induction n as [|n IH]; intros [|c s]; simpl; try done.
  f_equal. apply IH.
Qed.

Lemma string_substring_0_app (n : nat) (s1 s2 : string) :
  String.length s1 = n → String.substring 0 n (s1 +:+ s2) = s1.
Proof.
  revert s1. induction n as [|n IH]; intros [|c s1]; simpl; try done.
  - intros _. by destruct s2.
  - intros [= E]. f_equal. by apply IH.
Qed.

Example subject_truncated_long :
  subject_truncated long_subject_ticket =
  "Customer cannot log in to the control panel aft...".
Proof. reflexivity. Qed.

(** X14: the subject cell is never longer than 50 characters: a subject of
    up to 50 characters is shown as it is, a longer one as its first 47
    characters followed by three dots, 50 characters in all. *)
Theorem X14_subject_cell_at_most_50 (t : ticket) :
  (String.length (subject_truncated t) ≤ 50)%nat ∧
  ((String.length (subject t) ≤ 50)%nat → subject_truncated t = subject t) ∧
  ((50 < String.length (subject t))%nat →
     String.length (subject_truncated t) = 50%nat ∧
     String.substring 0 47 (subject_truncated t) = String.substring 0 47 (subject t) ∧
     String.substring 47 3 (subject_truncated t) = "...").
Proof.
  unfold subject_truncated.
  destruct (50 <? String.length (subject t))%nat eqn:E; cbv iota.
  - apply Nat.ltb_lt in E.
    assert (String.length (String.substring 0 47 (subject t)) = 47%nat) as L
      by (rewrite string_length_substring_0; lia).
    split; [rewrite string_length_app, L; cbn; lia|].
    split; [lia|]. intros _.
    split; [rewrite string_length_app, L; cbn; lia|].
    split; [by apply string_substring_0_app|].
    generalize dependent (String.substring 0 47 (subject t)). intros s L.
    do 47 (destruct s as [|? s]; [discriminate L|]).
    destruct s; [reflexivity|discriminate L].
  - apply Nat.ltb_ge in E. split; [done|]. split; [done|]. lia.
Qed.

(** X15: the company cell is never longer than 30 characters; a
    department that is not among the fetched names is shown as "Unknown",
    and a name of up to 30 characters as it is. *)
Theorem X15_company_cell_at_most_30 (company_names : gmap Z string) (t : ticket) :
  (String.length (company_name_truncated company_names t) ≤ 30)%nat ∧
  (company_names !! department_id t = None →
     company_name_truncated company_names t = "Unknown") ∧
  (∀ c, company_names !! department_id t = Some c →
     (String.length c ≤ 30)%nat →
     company_name_truncated company_names t = c).
Proof.
  unfold company_name_truncated, company_name.
  split; [|split].
  - cbv zeta. destruct (30 <? String.length _)%nat eqn:E; cbv iota.
    + rewrite string_length_app, string_length_substring_0.
      change (String.length "...") with 3%nat. lia.
    + by apply Nat.ltb_ge in E.
  - by intros ->.
  - intros c -> Hc. cbv zeta. change (default "Unknown" (Some c)) with c.
    apply Nat.ltb_ge in Hc. by rewrite Hc.
Qed.

(** * Fetching the company names *)

Lemma add_departments_app c l1 l2 :
  add_departments c (l1 ++ l2) = add_departments (add_departments c l1) l2.
Proof. unfold add_departments. apply foldl_app. Qed.

Lemma add_departments_lookup c l (i : Z) :
  add_departments c l !! i =
  match last (filter (λ d : Z * string, d.1 = i) l) with
  | Some d => Some d.2
  | None => c !! i
  end.
Proof.
  revert c. induction l as [|d l IH]; intros c; [done|].
  change (add_departments c (d :: l)) with (add_departments (<[d.1:=d.2]> c) l).
  rewrite IH, filter_cons.
  destruct (decide (d.1 = i)) as [<-|Hne].
  - destruct (filter _ l) as [|d' l'] eqn:E; [by rewrite lookup_insert_eq|].
    rewrite last_cons_cons.
    destruct (last (d' :: l')) eqn:EL; [done|]. by apply last_None in EL.
  - destruct (last _); [done|]. by rewrite lookup_insert_ne.
Qed.

Lemma pages_read_S server first count :
  pages_read server first (S count) =
  (server first ++ pages_read server (S first) count)%list.
Proof. reflexivity. Qed.

Lemma get_company_names_loop_spec server count :
  ∀ fuel first companies,
    (∀ j, (j < count)%nat → server (first + j)%nat ≠ []) →
    server (first + count)%nat = [] →
    (count < fuel)%nat →
    get_company_names_loop fuel server first companies =
      Some (add_departments companies (pages_read server first count)).
Proof.
  induction count as [|count IH]; intros fuel first companies Hfull Hend Hfuel.
  - destruct fuel as [|fuel]; [lia|]. cbn [get_company_names_loop].
    rewrite Nat.add_0_r in Hend. by rewrite Hend.
  - destruct fuel as [|fuel]; [lia|]. cbn [get_company_names_loop].
    pose proof (Hfull 0%nat ltac:(lia)) as H0. rewrite Nat.add_0_r in H0.
    rewrite pages_read_S, add_departments_app.
    destruct (server first) as [|d ds] eqn:E; [done|].
    apply IH; [|by rewrite Nat.add_succ_l, <- Nat.add_succ_r|lia].
    intros j Hj. rewrite Nat.add_succ_l, <- Nat.add_succ_r. apply Hfull. lia.
Qed.

(** X16: when pages 1 to [k] list departments and page [k + 1] is
    empty, [get_company_names] returns the names of pages 1 to [k]: an id
    is mapped to the name of its last listing on those pages, and an id
    they do not list is not in the result. *)
Theorem X16_company_names_up_to_first_empty_page
    (server : nat → list (Z * string)) (k fuel : nat) :
  (∀ p, (1 ≤ p ≤ k)%nat → server p ≠ []) →
  server (S k) = [] →
  (k < fuel)%nat →
  ∃ names, get_company_names fuel server = Some names ∧
    ∀ i, names !! i =
         snd <$> last (filter (λ d : Z * string, d.1 = i) (pages_read server 1 k)).
Proof.
  intros Hfull Hend Hfuel.
  exists (add_departments ∅ (pages_read server 1 k)). split.
  - apply get_company_names_loop_spec; [|done|done].
    intros j Hj. apply Hfull. lia.
  - intros i. rewrite add_departments_lookup, lookup_empty.
    by destruct (last _).
Qed.

Lemma X16_witness :
  ∃ names, get_company_names 10 three_pages = Some names ∧
    ∀ i, names !! i =
         snd <$> last (filter (λ d : Z * string, d.1 = i) (pages_read three_pages 1 2)).
Proof.
  apply (X16_company_names_up_to_first_empty_page three_pages 2 10).
  - intros p Hp. assert (p = 1 ∨ p = 2)%nat as [-> | ->] by lia; discriminate.
  - reflexivity.
  - lia.
Defined.

(** X17: pages behind the first empty page are never asked for: two
    remote sides that agree up to the first empty page give the same
    result, whatever either lists after it. *)
Theorem X17_pages_after_a_gap_are_ignored
    (server server' : nat → list (Z * string)) (k fuel fuel' : nat) :
  (∀ p, (1 ≤ p ≤ k)%nat → server p ≠ []) →
  server (S k) = [] →
  (∀ p, (1 ≤ p ≤ S k)%nat → server' p = server p) →
  (k < fuel)%nat → (k < fuel')%nat →
  get_company_names fuel' server' = get_company_names fuel server.
Proof.
  intros Hfull Hend Hsame Hfuel Hfuel'. unfold get_company_names.
  rewrite (get_company_names_loop_spec server k fuel 1 ∅);
    [|intros j Hj; apply Hfull; lia|done|done].
  rewrite (get_company_names_loop_spec server' k fuel' 1 ∅);
    [|intros j Hj; rewrite Hsame by lia; apply Hfull; lia
     |rewrite Hsame by lia; done|done].
  do 2 f_equal. unfold pages_read. f_equal.
  apply map_ext_in. intros p Hp. apply in_seq in Hp. apply Hsame. lia.
Qed.

Lemma X17_witness :
  get_company_names 5 (λ p, if decide (p = 4%nat) then [] else three_pages p) =
  get_company_names 10 three_pages.
Proof.
  apply (X17_pages_after_a_gap_are_ignored three_pages
           (λ p, if decide (p = 4%nat) then [] else three_pages p) 2 10 5).
  - intros p Hp. assert (p = 1 ∨ p = 2)%nat as [-> | ->] by lia; discriminate.
  - reflexivity.
  - intros p Hp. destruct (decide (p = 4%nat)); [lia|reflexivity].
  - lia.
  - lia.
Defined.

(** * Requests with retries *)

Lemma make_api_request_bounds network attempt retries :
  let r := make_api_request network attempt retries in
  (1 ≤ attempts r ≤ retries + 1)%nat ∧
  seconds_slept r = (2 * (attempts r - 1))%nat.
Proof.
  revert attempt. induction retries as [|retries IH]; intros attempt;
    cbn [make_api_request]; destruct (network attempt); cbn; try lia.
  specialize (IH (S attempt)). cbn zeta in IH. lia.
Qed.

(** X18: a call makes at least one and at most [retries + 1] requests
    (three with the default of two retries), and sleeps two seconds before
    each request after the first. *)
Theorem X18_requests_are_bounded (network : nat → outcome) (retries : nat) :
  (1 ≤ attempts (make_api_request network 0 retries) ≤ retries + 1)%nat ∧
  seconds_slept (make_api_request network 0 retries) =
    (2 * (attempts (make_api_request network 0 retries) - 1))%nat.
Proof. apply make_api_request_bounds. Qed.

Lemma make_api_request_first_answer network k :
  ∀ attempt retries,
    (k ≤ retries)%nat →
    (∀ j, (j < k)%nat → network (attempt + j)%nat = TimedOut) →
    network (attempt + k)%nat ≠ TimedOut →
    make_api_request network attempt retries =
      RequestRun
        (match network (attempt + k)%nat with
         | Response status_code => handle_response status_code
         | _ => RaisedRequestException
         end) (S k) (2 * k).
Proof.
  induction k as [|k IH]; intros attempt retries Hk Hto Hans.
  - rewrite Nat.add_0_r in *.
    destruct retries; cbn [make_api_request]; by destruct (network attempt).
  - destruct retries as [|retries]; [lia|]. cbn [make_api_request].
    pose proof (Hto 0%nat ltac:(lia)) as H0. rewrite Nat.add_0_r in H0.
    rewrite H0, (IH (S attempt) retries); [|lia| |].
    + rewrite Nat.add_succ_l, <- Nat.add_succ_r. cbn [result attempts seconds_slept].
      f_equal. lia.
    + intros j Hj. rewrite Nat.add_succ_l, <- Nat.add_succ_r. apply Hto. lia.
    + by rewrite Nat.add_succ_l, <- Nat.add_succ_r.
Qed.

(** X19: only timeouts are retried: the first attempt that does not time
    out, if it comes within the retries, decides the call: a transport
    error is raised again, and a response is handled by its status code;
    the attempts before it cost two seconds each. *)
Theorem X19_first_answer_decides (network : nat → outcome) (retries k : nat) :
  (k ≤ retries)%nat →
  (∀ j, (j < k)%nat → network j = TimedOut) →
  network k ≠ TimedOut →
  make_api_request network 0 retries =
    RequestRun
      (match network k with
       | Response status_code => handle_response status_code
       | _ => RaisedRequestException
       end) (S k) (2 * k).
Proof.
  intros Hk Hto Hans.
  apply (make_api_request_first_answer network k 0 retries Hk); done.
Qed.

Lemma X19_witness :
  make_api_request flaky_network 0 2 = RequestRun (handle_response 200) 3 4.
Proof.
  apply (X19_first_answer_decides flaky_network 2 2).
  - lia.
  - intros j Hj. assert (j = 0 ∨ j = 1)%nat as [-> | ->] by lia; reflexivity.
  - discriminate.
Defined.

(** X20: when every attempt times out, the call gives up after
    [retries + 1] requests and [2 * retries] seconds of sleep, with the
    timeout raised to the caller. *)
Theorem X20_gives_up_after_the_retries (network : nat → outcome) (retries : nat) :
  (∀ j, (j ≤ retries)%nat → network j = TimedOut) →
  make_api_request network 0 retries =
    RequestRun RaisedTimeout (S retries) (2 * retries).
Proof.
  assert (∀ attempt,
    (∀ j, (j ≤ retries)%nat → network (attempt + j)%nat = TimedOut) →
    make_api_request network attempt retries =
      RequestRun RaisedTimeout (S retries) (2 * retries)) as H.
  { induction retries as [|retries IH]; intros attempt Hto;
      cbn [make_api_request];
      pose proof (Hto 0%nat ltac:(lia)) as H0; rewrite Nat.add_0_r in H0;
      rewrite H0; [done|].
    rewrite IH.
    - cbn [result attempts seconds_slept]. f_equal. lia.
    - intros j Hj. rewrite Nat.add_succ_l, <- Nat.add_succ_r. apply Hto. lia. }
  intros Hto. by apply (H 0%nat).
Qed.

Lemma X20_witness :
  make_api_request (λ _, TimedOut) 0 2 = RequestRun RaisedTimeout 3 4.
Proof.
  apply (X20_gives_up_after_the_retries (λ _, TimedOut) 2). reflexivity.
Defined.

Lemma handle_response_Returned status_code s :
  handle_response status_code = Returned s →
  s = status_code ∧ (s < 400 ∨ 600 ≤ s).
Proof.
  unfold handle_response.
  destruct (status_code =? 403); [done|]. destruct (status_code =? 401); [done|].
  destruct (status_code =? 429); [done|].
  destruct ((400 <=? status_code) && (status_code <? 600)) eqn:E; [done|].
  intros [= <-]. split; [done|].
  apply andb_false_iff in E as [E|E]; [apply Z.leb_gt in E|apply Z.ltb_ge in E]; lia.
Qed.

(** X21: a response is handed back to the caller only when it is the
    answer to one of the [retries + 1] requests and its status is outside
    400..599; an error status never comes back as a result. *)
Theorem X21_only_good_responses_return (network : nat → outcome) (retries : nat)
    (s : Z) :
  result (make_api_request network 0 retries) = Returned s →
  (s < 400 ∨ 600 ≤ s) ∧ ∃ k, (k ≤ retries)%nat ∧ network k = Response s.
Proof.
  assert (∀ attempt,
    result (make_api_request network attempt retries) = Returned s →
    (s < 400 ∨ 600 ≤ s) ∧
    ∃ k, (k ≤ retries)%nat ∧ network (attempt + k)%nat = Response s) as H.
  { induction retries as [|retries IH]; intros attempt;
      cbn [make_api_request]; destruct (network attempt) as [| |c] eqn:E;
      cbn [result]; try done.
    - intros Hr. apply handle_response_Returned in Hr as [-> Hs].
      split; [done|]. exists 0%nat. by rewrite Nat.add_0_r.
    - intros Hr. destruct (IH _ Hr) as (Hs & k & Hk & Hn).
      split; [done|]. exists (S k). split; [lia|].
      by rewrite Nat.add_succ_r, <- Nat.add_succ_l.
    - intros Hr. apply handle_response_Returned in Hr as [-> Hs].
      split; [done|]. exists 0%nat. split; [lia|]. by rewrite Nat.add_0_r. }
  intros Hr. by apply (H 0%nat).
Qed.

Lemma X21_witness :
  (200 < 400 ∨ 600 ≤ 200) ∧ ∃ k, (k ≤ 2)%nat ∧ flaky_network k = Response 200.
Proof.
  apply (X21_only_good_responses_return flaky_network 2 200). reflexivity.
Defined.

(** * Choosing the log file *)

Lemma free_log_filename_spec taken today input_filename count :
  ∀ fuel first,
    (∀ j, (j < count)%nat →
          taken (log_filename today input_filename (first + j)) = true) →
    taken (log_filename today input_filename (first + count)) = false →
    (count < fuel)%nat →
    free_log_filename fuel taken today input_filename first =
      Some (log_filename today input_filename (first + count)).
Proof.
  induction count as [|count IH]; intros fuel first Htaken Hfree Hfuel;
    (destruct fuel as [|fuel]; [lia|]); cbn [free_log_filename].
  - rewrite Nat.add_0_r in *. by rewrite Hfree.
  - pose proof (Htaken 0%nat ltac:(lia)) as H0. rewrite Nat.add_0_r in H0.
    rewrite H0, (IH fuel (S first)); [|..|lia].
    + by rewrite Nat.add_succ_l, <- Nat.add_succ_r.
    + intros j Hj. rewrite Nat.add_succ_l, <- Nat.add_succ_r. apply Htaken. lia.
    + by rewrite Nat.add_succ_l, <- Nat.add_succ_r.
Qed.

(** X22: the log of a run goes to the first file name of the day that is
    not taken: when the names with iterations 1 to [n - 1] exist and the
    one with iteration [n] does not, the loop of [setup_logging] ends on
    iteration [n], so no existing log is opened for writing. *)
Theorem X22_first_free_log_filename (taken : string → bool)
    (today input_filename : string) (n fuel : nat) :
  (1 ≤ n)%nat →
  (∀ j, (1 ≤ j < n)%nat → taken (log_filename today input_filename j) = true) →
  taken (log_filename today input_filename n) = false →
  (n ≤ fuel)%nat →
  free_log_filename fuel taken today input_filename 1 =
    Some (log_filename today input_filename n).
Proof.
  intros Hn Htaken Hfree Hfuel.
  replace n with (1 + (n - 1))%nat in Hfree |- * by lia.
  apply free_log_filename_spec; [|done|lia].
  intros j Hj. apply Htaken. lia.
Qed.

Lemma X22_witness :
  free_log_filename 5 two_logs_taken "2024-06-01" "fscommander.py" 1 =
    Some (log_filename "2024-06-01" "fscommander.py" 3).
Proof.
  apply (X22_first_free_log_filename two_logs_taken "2024-06-01" "fscommander.py" 3 5).
  - lia.
  - intros j Hj. assert (j = 1 ∨ j = 2)%nat as [-> | ->] by lia; by vm_compute.
  - by vm_compute.
  - lia.
Defined.

(** * Version 1.0.3 against version 1.0.5 *)

Lemma insert_by_map {A B K} (lt : K → K → bool) (key1 : A → K) (key2 : B → K)
    (f : A → B) (x : A) (s : list A) :
  (∀ y, y ∈ x :: s → key2 (f y) = key1 y) →
  insert_by lt key2 (f x) (map f s) = map f (insert_by lt key1 x s).
Proof.
  intros Hk. induction s as [|y s IH]; [done|].
  cbn [map insert_by].
  rewrite (Hk x) by left. rewrite (Hk y) by (right; left).
  destruct (lt (key1 y) (key1 x)); [|done]. cbn [map]. rewrite IH; [done|].
  intros z Hz. apply Hk. apply elem_of_cons in Hz as [->|Hz]; [left|by do 2 right].
Qed.

Lemma list_sort_map {A B K} (lt : K → K → bool) (key1 : A → K) (key2 : B → K)
    (f : A → B) (l : list A) :
  (∀ x, x ∈ l → key2 (f x) = key1 x) →
  list_sort lt key2 (map f l) = map f (list_sort lt key1 l).
Proof.
  induction l as [|x l IH]; intros Hk; [done|].
  change (list_sort lt key2 (map f (x :: l)))
    with (insert_by lt key2 (f x) (list_sort lt key2 (map f l))).
  change (list_sort lt key1 (x :: l))
    with (insert_by lt key1 x (list_sort lt key1 l)).
  rewrite IH by (intros y Hy; apply Hk; by right).
  apply insert_by_map. intros y Hy. apply Hk.
  apply elem_of_cons in Hy as [->|Hy]; [left|right].
  by rewrite list_sort_perm in Hy.
Qed.

Lemma V103_key_agrees r :
  both_fields_text r →
  V1_0_3.calculate_sort_key r = Some (calculate_sort_key (to_ticket r)).1.
Proof.
  intros [(a & Ha) (e & He)].
  rewrite calculate_sort_key_fst.
  unfold V1_0_3.calculate_sort_key, V1_0_3.scoring_map_get, lookup_key, score_key.
  cbn [to_ticket custom_fields account_tier environment is_escalated priority
       ticket_type created_at].
  rewrite Ha, He. cbn [field_subscript field_get default from_option].
  by destruct (raw_is_escalated r).
Qed.

(** X23: on tickets that carry both custom fields as strings, version
    1.0.3 ranks exactly as version 1.0.5 does: its output is the input
    rearranged, nothing written into the tickets, and the 1.0.5 ranking of
    the same documents, at either log level, is that list with [score]
    and [sort_key] added. *)
Theorem X23_v103_ranks_like_v105 (rs : list raw_ticket) :
  Forall both_fields_text rs →
  ∃ out, V1_0_3.sort_tickets rs = Some out ∧
         out ≡ₚ rs ∧
         ∀ debug, sort_tickets debug (map fresh rs) =
                  Some (map (λ r, decorate (fresh r)) out).
Proof.
  intros Hall. rewrite Forall_forall in Hall.
  exists (list_sort sort_key_lt
            (λ r, default (0, "") (V1_0_3.calculate_sort_key r)) rs).
  split; [|split].
  - unfold V1_0_3.sort_tickets.
    assert (forallb (λ r, bool_decide (is_Some (V1_0_3.calculate_sort_key r))) rs
            = true) as ->; [|done].
    apply forallb_forall. intros r Hr. apply bool_decide_eq_true.
    rewrite V103_key_agrees by (apply Hall; by apply list_elem_of_In). by eexists.
  - apply list_sort_perm.
  - intros debug. rewrite sort_tickets_returns.
    + f_equal. unfold ranking. rewrite map_map. apply list_sort_map.
      intros r Hr. rewrite (V103_key_agrees r (Hall r Hr)).
      unfold get_sort_key, decorate. reflexivity.
    + right. apply Forall_forall. intros d Hd.
      apply list_elem_of_In, in_map_iff in Hd as (r & <- & Hr).
      destruct (Hall r (proj2 (list_elem_of_In _ _) Hr)) as [(a & Ha) (e & He)].
      unfold has_custom_keys, fresh. cbn [document]. rewrite Ha, He. by split.
Qed.

Lemma X23_witness :
  ∃ out, V1_0_3.sort_tickets raw_sample = Some out ∧
         out ≡ₚ raw_sample ∧
         ∀ debug, sort_tickets debug (map fresh raw_sample) =
                  Some (map (λ r, decorate (fresh r)) out).
Proof.
  apply (X23_v103_ranks_like_v105 raw_sample).
  unfold raw_sample, both_fields_text.
  repeat (constructor; [split; by eexists|]). constructor.
Defined.

(** X24: version 1.0.3 has no defaults: one ticket without the
    [account_tier] or the [environment] key makes the whole ranking fail
    with a [KeyError], and a ticket whose tier or environment is [null]
    is unranked (score 0), where version 1.0.5 scores it as tier C /
    Production. *)
Theorem X24_v103_has_no_defaults :
  (∀ rs r, r ∈ rs →
     raw_account_tier (raw_custom r) = Absent ∨
     raw_environment (raw_custom r) = Absent →
     V1_0_3.sort_tickets rs = None) ∧
  (∀ r, raw_account_tier (raw_custom r) = Null ∧
        raw_environment (raw_custom r) ≠ Absent ∨
        raw_environment (raw_custom r) = Null ∧
        raw_account_tier (raw_custom r) ≠ Absent →
     V1_0_3.calculate_sort_key r = Some (0, raw_created_at r)) ∧
  V1_0_3.calculate_sort_key raw_null_tier = Some (0, "2024-07-04T00:00:00Z") ∧
  (calculate_sort_key (to_ticket raw_null_tier)).1 = (-38, "2024-07-04T00:00:00Z").
Proof.
  split; [|split; [|split]].
  - intros rs r Hr Habs. unfold V1_0_3.sort_tickets.
    assert (forallb (λ r, bool_decide (is_Some (V1_0_3.calculate_sort_key r))) rs
            = false) as ->; [|done].
    apply not_true_is_false. intros Hall.
    rewrite forallb_forall in Hall.
    specialize (Hall r (proj1 (list_elem_of_In _ _) Hr)).
    apply bool_decide_eq_true in Hall as [k Hk].
    unfold V1_0_3.calculate_sort_key in Hk.
    destruct Habs as [E|E]; rewrite E in Hk; cbn [field_subscript] in Hk;
      [done|by destruct (field_subscript _)].
  - intros r Hnull. unfold V1_0_3.calculate_sort_key, V1_0_3.scoring_map_get.
    destruct Hnull as [[E Hne]|[E Hne]]; rewrite E;
      destruct (raw_account_tier (raw_custom r)) eqn:Et;
      destruct (raw_environment (raw_custom r)) eqn:Ee;
      try done; cbn [field_subscript]; by destruct (raw_is_escalated r).
  - reflexivity.
  - rewrite calculate_sort_key_fst. by vm_compute.
Qed.

(** * What the displays show against what was scored *)

(** X25: the HTML display shows for tier and environment the values the
    score was computed with.  The table display does so too, except for a
    field that is [null]: there it shows [None], although the ticket was
    scored with the default (tier C, environment Production). *)
Theorem X25_displayed_tier_and_environment (r : raw_ticket) :
  account_tier_display r = tier_used (to_ticket r) ∧
  environment_display r = environment_used (to_ticket r) ∧
  (raw_account_tier (raw_custom r) ≠ Null →
     table_account_tier_cell r = Some (tier_used (to_ticket r))) ∧
  (raw_environment (raw_custom r) ≠ Null →
     table_environment_cell r = Some (environment_used (to_ticket r))) ∧
  (raw_account_tier (raw_custom r) = Null →
     table_account_tier_cell r = None ∧ tier_used (to_ticket r) = "C") ∧
  (raw_environment (raw_custom r) = Null →
     table_environment_cell r = None ∧
     environment_used (to_ticket r) = "Production").
Proof.
  unfold account_tier_display, environment_display, table_account_tier_cell,
    table_environment_cell, tier_used, environment_used.
  cbn [to_ticket custom_fields account_tier environment].
  destruct (raw_account_tier (raw_custom r)), (raw_environment (raw_custom r));
    cbn; repeat split; congruence.
Qed.
